(** * videoCnC: the /convert and /clip endpoints of [main.py]

    A shallow embedding of the request handlers of [main.py] and of
    [cleanup_files], with the properties of the service's specification
    stated and settled over it.

    Python objects that [json.loads] can return are an inductive type, a
    [dict] is a [gmap] with string keys; scratch storage is a listing of
    paths; the handlers run in a small state-and-exception monad over a
    [world] holding the scratch storage, the names [tempfile] will pick and
    the behaviour of the media engine at its next calls. *)

From Stdlib Require Import ZArith Ascii String List Bool Lia.
From stdpp Require Import base decidable option list gmap strings pretty.

Local Open Scope string_scope.
Local Open Scope Z_scope.

(** ** Python numbers

    [json.loads] produces [bool], [int] and [float] objects (and accepts the
    literals [NaN], [Infinity] and [-Infinity]).  Comparison between them is
    the exact comparison of their values, a comparison with [nan] is false.
    A finite float is the dyadic rational [m * 2^e]. *)

Inductive pyfloat : Type :=
  | Fnan
  | Finf (negative : bool)
  | Ffin (m e : Z).

Inductive pynum : Type :=
  | PBool (b : bool)
  | PInt (z : Z)
  | PFloat (f : pyfloat).

(** Sign-aware three-way comparison of [m1 * 2^e1] with [m2 * 2^e2]. *)
Definition dyadic_compare (m1 e1 m2 e2 : Z) : comparison :=
  let e := Z.min e1 e2 in
  Z.compare (m1 * 2 ^ (e1 - e)) (m2 * 2 ^ (e2 - e)).

(** The value a number is compared by: [True] is 1, [False] is 0, an [int]
    [z] is [z * 2^0]. *)
Definition num_float (x : pynum) : pyfloat :=
  match x with
  | PBool true => Ffin 1 0
  | PBool false => Ffin 0 0
  | PInt z => Ffin z 0
  | PFloat f => f
  end.

Definition float_lt (a b : pyfloat) : bool :=
  match a, b with
  | Fnan, _ | _, Fnan => false
  | Finf true, Finf true => false
  | Finf true, _ => true
  | _, Finf true => false
  | Finf false, _ => false
  | _, Finf false => true
  | Ffin m1 e1, Ffin m2 e2 =>
      match dyadic_compare m1 e1 m2 e2 with Lt => true | _ => false end
  end.

Definition float_eq (a b : pyfloat) : bool :=
  match a, b with
  | Fnan, _ | _, Fnan => false
  | Finf s1, Finf s2 => Bool.eqb s1 s2
  | Ffin m1 e1, Ffin m2 e2 =>
      match dyadic_compare m1 e1 m2 e2 with Eq => true | _ => false end
  | _, _ => false
  end.

(** [a < b], [a <= b] and [a > b] of Python. *)
Definition py_lt (a b : pynum) : bool := float_lt (num_float a) (num_float b).
Definition py_le (a b : pynum) : bool :=
  float_lt (num_float a) (num_float b) || float_eq (num_float a) (num_float b).
Definition py_gt (a b : pynum) : bool := py_lt b a.

(** ** The objects [json.loads] returns *)

#[warnings="-register-all"]
Inductive json : Type :=
  | JNull
  | JBool (b : bool)
  | JInt (z : Z)
  | JFloat (f : pyfloat)
  | JStr (s : string)
  | JList (l : list json)
  | JDict (d : gmap string json).

(** [isinstance(v, (int, float))], with the number when it holds: [bool] is
    a subclass of [int]. *)
Definition as_number (v : json) : option pynum :=
  match v with
  | JBool b => Some (PBool b)
  | JInt z => Some (PInt z)
  | JFloat f => Some (PFloat f)
  | _ => None
  end.

(** ** Exceptions and responses *)

(** A message is kept as the pieces of the f-string that builds it: literal
    text, a number printed by [str] ([{x}]) and a number printed with two
    decimals ([{x:.2f}]).  How a float prints is left to Python. *)
Inductive piece : Type :=
  | Lit (s : string)
  | Num (x : pynum)
  | Num2f (x : pynum).

Definition text : Type := list piece.

Inductive exn : Type :=
  | HTTPException (status_code : Z) (detail : text)
  | ValueError (msg : string)
  | OtherException (msg : text).

(** [str(e)] *)
Definition exn_str (e : exn) : text :=
  match e with
  | HTTPException _ d => d
  | ValueError m => [Lit m]
  | OtherException m => m
  end.

(** [str(i)] for an index. *)
Definition str_nat (i : nat) : string := pretty i.

(** ** Parsing and structural validation of the clip plan
    ([clip_video], the first [try] block) *)

(** The body of the [for i, clip in enumerate(clips_data)] loop: the first
    rule that entry [i] breaks, as the [ValueError] message it raises. *)
Definition check_clip (i : nat) (clip : json) : option string :=
  match clip with
  | JDict d =>
      match d !! "start", d !! "end" with
      | Some s, Some e =>
          match as_number s, as_number e with
          | Some s, Some e =>
              if py_lt s (PInt 0) || py_lt e (PInt 0)
              then Some ("Clip " ++ str_nat i ++ " start and end must be non-negative")
              else if py_le e s
              then Some ("Clip " ++ str_nat i ++ " end must be greater than start")
              else None
          | _, _ => Some ("Clip " ++ str_nat i ++ " start and end must be numbers")
          end
      | _, _ => Some ("Clip " ++ str_nat i ++ " must have 'start' and 'end' keys")
      end
  | _ => Some ("Clip " ++ str_nat i ++ " must be a dictionary")
  end.

Fixpoint check_clips (i : nat) (clips_data : list json) : option string :=
  match clips_data with
  | [] => None
  | clip :: rest =>
      match check_clip i clip with
      | Some msg => Some msg
      | None => check_clips (S i) rest
      end
  end.

(** The statements of the first [try] block after [json.loads]: the
    exception they raise, or the validated list. *)
Definition validate_clips (clips_data : json) : exn + list json :=
  match clips_data with
  | JList l =>
      match check_clips 0 l with
      | Some msg => inl (ValueError msg)
      | None =>
          if (length l =? 0)%nat
          then inl (ValueError "At least one clip must be specified")
          else inr l
      end
  | _ => inl (ValueError "Clips must be a list")
  end.

(** What [json.loads] raises, with the text of the exception: a
    [JSONDecodeError]; a [ValueError] that is not one (an integer literal
    longer than the interpreter converts); or an exception of another class
    ([RecursionError] on input nested too deep). *)
Inductive loads_error : Type :=
  | JSONDecodeError (msg : string)
  | LoadsValueError (msg : string)
  | LoadsOther (msg : string).

(** The whole block.  [json.loads] is library code: its outcome on the raw
    form field is the argument, the exception it raises or the object it
    returns.  [except json.JSONDecodeError] and [except ValueError] turn
    their exception into a 400; an exception of another class is caught by
    neither and leaves the handler. *)
Definition parse_clips (loaded : loads_error + json) : exn + list json :=
  match loaded with
  | inl (JSONDecodeError msg) =>
      inl (HTTPException 400 [Lit ("Invalid JSON format for clips: " ++ msg)])
  | inl (LoadsValueError msg) => inl (HTTPException 400 (exn_str (ValueError msg)))
  | inl (LoadsOther msg) => inl (OtherException [Lit msg])
  | inr clips_data =>
      match validate_clips clips_data with
      | inl e => inl (HTTPException 400 (exn_str e))
      | inr l => inr l
      end
  end.

(** ** File names ([pathlib])

    [Path(s).name] is the last component of [s], components being separated
    by [/] and the empty and [.] components dropped; [suffix] starts at the
    last dot of the name when that dot is neither its first nor its last
    character, and [stem] is the name without the suffix. *)

Definition slash : ascii := "/"%char.
Definition dot : ascii := "."%char.

(** The components of [s], with [cur] the component being read. *)
Fixpoint components_go (cur : string) (s : string) : list string :=
  match s with
  | EmptyString => [String.rev cur]
  | String c r =>
      if Ascii.eqb c slash then String.rev cur :: components_go "" r
      else components_go (String c cur) r
  end.

Definition kept_component (c : string) : bool :=
  negb (String.eqb c "" || String.eqb c ".").

Definition path_name (s : string) : string :=
  List.last (List.filter kept_component (components_go "" s)) "".

(** [name.rfind('.')] *)
Fixpoint rfind_dot (s : string) : option nat :=
  match s with
  | EmptyString => None
  | String c r =>
      match rfind_dot r with
      | Some i => Some (S i)
      | None => if Ascii.eqb c dot then Some O else None
      end
  end.

(** The index at which the suffix of [name] starts, if it has one. *)
Definition suffix_start (name : string) : option nat :=
  match rfind_dot name with
  | Some i =>
      if ((0 <? i) && (i <? String.length name - 1))%nat then Some i else None
  | None => None
  end.

Definition name_suffix (name : string) : string :=
  match suffix_start name with
  | Some i => substring i (String.length name - i) name
  | None => ""
  end.

Definition name_stem (name : string) : string :=
  match suffix_start name with
  | Some i => substring 0 i name
  | None => name
  end.

(** [Path(s).suffix] and [Path(s).stem] *)
Definition path_suffix (s : string) : string := name_suffix (path_name s).
Definition path_stem (s : string) : string := name_stem (path_name s).

(** [TEMP_DIR / name] for a [name] that is a single relative component, as
    every name the handlers build is.  Paths are written relative to the
    working directory of the process. *)
Definition TEMP_DIR : string := "temp".
Definition in_temp (name : string) : string := TEMP_DIR ++ "/" ++ name.

(** ** The world outside the handlers *)

(** What a path of scratch storage holds: a file with its bytes, a ZIP
    archive with the names of its entries in order, or a directory. *)
Inductive node : Type :=
  | File (data : string)
  | Archive (names : list string)
  | Dir.

(** What the media engine does at one call that writes a target file: the
    text of the exception it raises, if any, and the bytes it leaves at the
    target, if any. *)
Record outcome : Type := Outcome {
  raises : option string;
  leaves : option string;
}.

(** The calls made to the media engine. *)
Inductive call : Type :=
  | Probe (src : string)
  | ExtractAudio (src target : string)
  | ExtractSubclip (src : string) (start_time end_time : pynum) (target : string).

Record world : Type := World {
  files : list (string * node);   (* scratch storage, in listing order *)
  pinned : gset string;           (* entries the system refuses to unlink or to open for writing *)
  tmp_names : list string;        (* the random names [tempfile] draws next *)
  probes : list (string + pynum); (* next outcomes of [VideoFileClip]: error or duration *)
  engine : list outcome;          (* next outcomes of the writing engine calls *)
  calls : list call;              (* engine calls made so far, oldest first *)
}.

Definition set_files (fs : list (string * node)) (w : world) : world :=
  World fs (pinned w) (tmp_names w) (probes w) (engine w) (calls w).

Definition fs_lookup (p : string) (fs : list (string * node)) : option node :=
  snd <$> List.find (fun e => String.eqb (fst e) p) fs.

Definition fs_write (p : string) (n : node) (fs : list (string * node))
  : list (string * node) :=
  match fs_lookup p fs with
  | Some _ => List.map (fun e => if String.eqb (fst e) p then (p, n) else e) fs
  | None => fs ++ [(p, n)]
  end.

(** The listing without the entries named in [gone]. *)
Definition fs_unlink (gone : list string) (fs : list (string * node))
  : list (string * node) :=
  List.filter (fun e => negb (existsb (String.eqb (fst e)) gone)) fs.

(** [q] lies below directory [p]. *)
Definition below (p q : string) : bool := String.prefix (p ++ "/") q.

(** ** The monad of the handlers: state and exceptions *)

Definition M (S A : Type) : Type := S -> (exn + A) * S.

Definition ret {S A} (a : A) : M S A := fun s => (inr a, s).
Definition raise {S A} (e : exn) : M S A := fun s => (inl e, s).
Definition bind {S A B} (m : M S A) (k : A -> M S B) : M S B :=
  fun s => match m s with
           | (inr a, s') => k a s'
           | (inl e, s') => (inl e, s')
           end.
(** [try: m except Exception as e: h e] *)
Definition try_except {S A} (m : M S A) (h : exn -> M S A) : M S A :=
  fun s => match m s with
           | (inr a, s') => (inr a, s')
           | (inl e, s') => h e s'
           end.
Definition get {S} : M S S := fun s => (inr s, s).
Definition modify {S} (f : S -> S) : M S unit := fun s => (inr tt, f s).

Declare Scope py_scope.
Delimit Scope py_scope with py.
Notation "x <- m ;; k" := (bind m (fun x => k))
  (at level 100, m at next level, right associativity) : py_scope.
Notation "m ;;; k" := (bind m (fun _ => k))
  (at level 100, right associativity) : py_scope.
Local Open Scope py_scope.

(** ** The operating system calls of [cleanup_files] *)

(** [os.path.exists] and [os.path.isdir]: they never raise. *)
Definition path_exists (p : string) (w : world) : bool :=
  match fs_lookup p (files w) with Some _ => true | None => false end.
Definition path_isdir (p : string) (w : world) : bool :=
  match fs_lookup p (files w) with Some Dir => true | _ => false end.

Definition is_pinned (w : world) (p : string) : bool := bool_decide (p ∈ pinned w).

(** [os.remove] *)
Definition os_remove (p : string) : M world unit := fun w =>
  match fs_lookup p (files w) with
  | None => (inl (OtherException [Lit "FileNotFoundError"]), w)
  | Some Dir => (inl (OtherException [Lit "IsADirectoryError"]), w)
  | Some _ =>
      if is_pinned w p then (inl (OtherException [Lit "PermissionError"]), w)
      else (inr tt, set_files (fs_unlink [p] (files w)) w)
  end.

(** The entries [shutil.rmtree p] has to unlink: what lies below [p], in
    listing order, then [p] itself. *)
Definition tree_entries (p : string) (w : world) : list string :=
  List.filter (below p) (List.map fst (files w)) ++ [p].

(** The entries at the front of [vs] that can be unlinked. *)
Fixpoint unlinkable (w : world) (vs : list string) : list string :=
  match vs with
  | [] => []
  | v :: rest => if is_pinned w v then [] else v :: unlinkable w rest
  end.

(** [shutil.rmtree]: unlinks the entries in order and raises at the first
    one the system refuses, leaving that one and those after it. *)
Definition shutil_rmtree (p : string) : M world unit := fun w =>
  let vs := tree_entries p w in
  let gone := unlinkable w vs in
  let w' := set_files (fs_unlink gone (files w)) w in
  if (length gone =? length vs)%nat then (inr tt, w')
  else (inl (OtherException [Lit "PermissionError"]), w').

(** ** [cleanup_files] *)

(** The test [file_path and os.path.exists(file_path)]: [None] and the
    empty string are false. *)
Definition truthy (file_path : option string) : option string :=
  match file_path with
  | Some "" => None
  | other => other
  end.

Fixpoint cleanup_files (file_paths : list (option string)) : M world unit :=
  match file_paths with
  | [] => ret tt
  | file_path :: rest =>
      match truthy file_path with
      | Some p =>
          w <- get ;;
          if path_exists p w then
            try_except
              (if path_isdir p w then shutil_rmtree p else os_remove p)
              (fun _ => ret tt)
          else ret tt
      | None => ret tt
      end ;;;
      cleanup_files rest
  end.

(** ** Uploads, responses and the library calls of the handlers *)

Record upload : Type := Upload {
  filename : option string;
  content_type : option string;
  content : string;
}.

Record file_response : Type := FileResponse {
  resp_path : string;
  resp_filename : string;
  media_type : string;
}.

(** What a handler hands back: the response and the cleanup it has added
    to [background_tasks], to run once the response is sent. *)
Record reply : Type := Reply {
  response : file_response;
  background : list (list (option string));
}.

(** [not file.content_type or not file.content_type.startswith("video/")] *)
Definition not_video (file : upload) : bool :=
  match truthy (content_type file) with
  | Some ct => negb (String.prefix "video/" ct)
  | None => true
  end.

(** [Path(file.filename).suffix if file.filename else ".mp4"] *)
Definition video_ext (file : upload) : string :=
  match truthy (filename file) with
  | Some fn => path_suffix fn
  | None => ".mp4"
  end.

Definition log_call (c : call) (w : world) : world :=
  World (files w) (pinned w) (tmp_names w) (probes w) (engine w) (calls w ++ [c]).

(** The candidate names still free in scratch storage come first. *)
Fixpoint first_free (suffix : string) (fs : list (string * node)) (names : list string)
  : option (string * list string) :=
  match names with
  | [] => None
  | r :: rest =>
      let p := in_temp ("tmp" ++ r ++ suffix) in
      match fs_lookup p fs with
      | None => Some (p, rest)
      | Some _ => first_free suffix fs rest
      end
  end.

(** The [with tempfile.NamedTemporaryFile(delete=False, suffix=..., dir=TEMP_DIR)]
    block: the file is created under the first drawn name that is free, the
    upload is written to it, and its name is the result. *)
Definition NamedTemporaryFile (suffix : string) (data : string) : M world string :=
  fun w =>
    match first_free suffix (files w) (tmp_names w) with
    | None => (inl (OtherException [Lit "FileExistsError"]), w)
    | Some (p, rest) =>
        (inr p, World (fs_write p (File data) (files w)) (pinned w) rest
                      (probes w) (engine w) (calls w))
    end.

(** [VideoFileClip(path)], for the duration it reads. *)
Definition VideoFileClip (path : string) : M world pynum := fun w =>
  let w1 := log_call (Probe path) w in
  match probes w with
  | [] => (inl (OtherException [Lit "engine unavailable"]), w1)
  | o :: rest =>
      let w2 := World (files w1) (pinned w1) (tmp_names w1) rest (engine w1) (calls w1) in
      match o with
      | inl msg => (inl (OtherException [Lit msg]), w2)
      | inr d => (inr d, w2)
      end
  end.

(** One engine call that is to write [target]. *)
Definition engine_call (c : call) (target : string) : M world unit := fun w =>
  let w1 := log_call c w in
  match engine w with
  | [] => (inl (OtherException [Lit "engine unavailable"]), w1)
  | o :: rest =>
      let fs := match leaves o with
                | Some data => fs_write target (File data) (files w1)
                | None => files w1
                end in
      let w2 := World fs (pinned w1) (tmp_names w1) (probes w1) rest (calls w1) in
      match raises o with
      | Some msg => (inl (OtherException [Lit msg]), w2)
      | None => (inr tt, w2)
      end
  end.

Definition ffmpeg_extract_subclip (src : string) (start_time end_time : pynum)
    (targetname : string) : M world unit :=
  engine_call (ExtractSubclip src start_time end_time targetname) targetname.

(** [video.audio.write_audiofile(target, codec='mp3', bitrate='192k', ...)] *)
Definition write_audiofile (src target : string) : M world unit :=
  engine_call (ExtractAudio src target) target.

(** The longest name an entry of a directory can have. *)
Definition NAME_MAX : nat := 255.

(** Why [path] cannot be opened for writing, if it cannot: it is a
    directory, its name is too long, or the system refuses to touch it. *)
Definition cannot_open (path : string) (w : world) : option string :=
  if path_isdir path w then Some "IsADirectoryError"
  else if (NAME_MAX <? String.length (path_name path))%nat then Some "File name too long"
  else if is_pinned w path then Some "PermissionError"
  else None.

(** [zipfile.ZipFile(path, 'w', ...)] opens [path] for writing, which
    creates an empty archive there, or raises when it cannot be opened. *)
Definition ZipFile (path : string) : M world unit := fun w =>
  match cannot_open path w with
  | Some msg => (inl (OtherException [Lit msg]), w)
  | None => (inr tt, set_files (fs_write path (Archive []) (files w)) w)
  end.

(** [zipf.write(clip_path, arcname)] *)
Definition zipf_write (zip_path clip_path arcname : string) : M world unit := fun w =>
  match fs_lookup clip_path (files w) with
  | None => (inl (OtherException [Lit "FileNotFoundError"]), w)
  | Some _ =>
      let names := match fs_lookup zip_path (files w) with
                   | Some (Archive ns) => ns
                   | _ => []
                   end in
      (inr tt, set_files (fs_write zip_path (Archive (names ++ [arcname])) (files w)) w)
  end.

(** [clip[key]] for a key that holds a number. *)
Definition subscript {S} (clip : json) (key : string) : M S pynum :=
  match clip with
  | JDict d =>
      match d !! key with
      | Some v =>
          match as_number v with
          | Some x => ret x
          | None => raise (OtherException [Lit "TypeError"])
          end
      | None => raise (OtherException [Lit "KeyError"])
      end
  | _ => raise (OtherException [Lit "TypeError"])
  end.

(** A handler keeps its local variables [F] next to the world. *)
Definition lift {F A} (m : M world A) : M (F * world) A :=
  fun s => match m (snd s) with (r, w') => (r, (fst s, w')) end.
Definition set_local {F} (f : F -> F) : M (F * world) unit :=
  modify (fun s => (f (fst s), snd s)).
Definition with_locals {F A} (f0 : F) (m : M (F * world) A) : M world A :=
  fun w => match m (f0, w) with (r, s') => (r, snd s') end.

(** ** [convert_video_to_audio] *)

Module Convert.

Record locals : Type := Locals {
  temp_video_path : option string;
  temp_audio_path : option string;
}.

(** [Path(file.filename).stem + ".mp3" if file.filename else "output.mp3"] *)
Definition audio_filename (file : upload) : string :=
  match truthy (filename file) with
  | Some fn => path_stem fn ++ ".mp3"
  | None => "output.mp3"
  end.

(** The body of the [try]. *)
Definition body (file : upload) : M (locals * world) reply :=
  tv <- lift (NamedTemporaryFile (video_ext file) (content file)) ;;
  set_local (fun l => Locals (Some tv) (temp_audio_path l)) ;;;
  let audio_filename := audio_filename file in
  let ta := in_temp audio_filename in
  set_local (fun l => Locals (temp_video_path l) (Some ta)) ;;;
  _ <- lift (VideoFileClip tv) ;;
  lift (write_audiofile tv ta) ;;;
  s <- get ;;
  if negb (path_exists ta (snd s)) then
    lift (cleanup_files [Some tv]) ;;;
    raise (HTTPException 500 [Lit "Failed to convert video to audio"])
  else
    ret (Reply (FileResponse ta audio_filename "audio/mpeg") [[Some tv; Some ta]]).

(** The two [except] clauses. *)
Definition handler {A} (e : exn) : M (locals * world) A :=
  match e with
  | HTTPException _ _ => raise e
  | _ =>
      s <- get ;;
      lift (cleanup_files [temp_video_path (fst s); temp_audio_path (fst s)]) ;;;
      raise (HTTPException 500 (Lit "Error converting video: " :: exn_str e))
  end.

Definition convert_video_to_audio (file : upload) : M world reply :=
  if not_video file then
    raise (HTTPException 400 [Lit "Invalid file type. Please upload a video file."])
  else
    with_locals (Locals None None) (try_except (body file) handler).

End Convert.

(** ** [clip_video] *)

Module Clip.

Record locals : Type := Locals {
  temp_video_path : option string;
  temp_zip_path : option string;
  clip_paths : list string;
}.

(** [Path(file.filename).stem if file.filename else "video"] *)
Definition base_filename (file : upload) : string :=
  match truthy (filename file) with
  | Some fn => path_stem fn
  | None => "video"
  end.

Definition zip_filename (file : upload) : string := base_filename file ++ "_clips.zip".

(** [f"{base_filename}_clip{clip_suffix}.mp4"] for the entry at index [i]. *)
Definition clip_filename (base : string) (total_clips i : nat) : string :=
  let clip_suffix := if (total_clips =? 1)%nat then "" else "_" ++ str_nat (i + 1) in
  base ++ "_clip" ++ clip_suffix ++ ".mp4".

(** The loop that checks the clips against the duration of the video. *)
Fixpoint check_duration {St} (video_duration : pynum) (i : nat) (clips_data : list json)
  : M St unit :=
  match clips_data with
  | [] => ret tt
  | clip :: rest =>
      end_time <- subscript clip "end" ;;
      if py_gt end_time video_duration then
        raise (HTTPException 400
                 [Lit ("Clip " ++ str_nat i ++ " end time ("); Num end_time;
                  Lit "s) exceeds video duration ("; Num2f video_duration; Lit "s)"])
      else check_duration video_duration (S i) rest
  end.

(** The loop inside the [with zipfile.ZipFile(...)] block. *)
Fixpoint extract_clips (tv base zip_path : string) (total_clips : nat)
    (i : nat) (clips_data : list json) : M (locals * world) unit :=
  match clips_data with
  | [] => ret tt
  | clip :: rest =>
      start_time <- subscript clip "start" ;;
      end_time <- subscript clip "end" ;;
      let clip_filename := clip_filename base total_clips i in
      let clip_path := in_temp clip_filename in
      try_except
        (lift (ffmpeg_extract_subclip tv start_time end_time clip_path))
        (fun clip_error =>
           raise (HTTPException 500
                    (Lit ("Failed to create clip " ++ str_nat (i + 1) ++ ": ")
                     :: exn_str clip_error))) ;;;
      s <- get ;;
      if negb (path_exists clip_path (snd s)) then
        raise (HTTPException 500
                 [Lit ("Clip " ++ str_nat (i + 1) ++ " was not created successfully")])
      else
        lift (zipf_write zip_path clip_path clip_filename) ;;;
        set_local (fun l => Locals (temp_video_path l) (temp_zip_path l)
                                   (clip_paths l ++ [clip_path])) ;;;
        extract_clips tv base zip_path total_clips (S i) rest
  end.

(** The body of the second [try]. *)
Definition body (file : upload) (clips_data : list json) : M (locals * world) reply :=
  tv <- lift (NamedTemporaryFile (video_ext file) (content file)) ;;
  set_local (fun l => Locals (Some tv) (temp_zip_path l) (clip_paths l)) ;;;
  video_duration <- lift (VideoFileClip tv) ;;
  check_duration video_duration 0 clips_data ;;;
  let base := base_filename file in
  let total_clips := length clips_data in
  let zip_filename := zip_filename file in
  let zip_path := in_temp zip_filename in
  set_local (fun l => Locals (temp_video_path l) (Some zip_path) (clip_paths l)) ;;;
  lift (ZipFile zip_path) ;;;
  extract_clips tv base zip_path total_clips 0 clips_data ;;;
  s <- get ;;
  if negb (path_exists zip_path (snd s)) then
    lift (cleanup_files (Some tv :: List.map Some (clip_paths (fst s)))) ;;;
    raise (HTTPException 500 [Lit "Failed to create clips zip file"])
  else
    ret (Reply (FileResponse zip_path zip_filename "application/zip")
               [Some tv :: Some zip_path :: List.map Some (clip_paths (fst s))]).

(** The two [except] clauses of the second [try]. *)
Definition handler {A} (e : exn) : M (locals * world) A :=
  match e with
  | HTTPException _ _ => raise e
  | _ =>
      s <- get ;;
      lift (cleanup_files (temp_video_path (fst s) :: temp_zip_path (fst s)
                           :: List.map Some (clip_paths (fst s)))) ;;;
      raise (HTTPException 500 (Lit "Error clipping video: " :: exn_str e))
  end.

(** The handler; [loaded] is what [json.loads(clips)] gives. *)
Definition clip_video (file : upload) (loaded : loads_error + json) : M world reply :=
  if not_video file then
    raise (HTTPException 400 [Lit "Invalid file type. Please upload a video file."])
  else
    match parse_clips loaded with
    | inl e => raise e
    | inr clips_data =>
        with_locals (Locals None None []) (try_except (body file clips_data) handler)
    end.

End Clip.

(** After the response is sent the background tasks run. *)
Fixpoint run_background (tasks : list (list (option string))) : M world unit :=
  match tasks with
  | [] => ret tt
  | t :: rest => cleanup_files t ;;; run_background rest
  end.

(** ** The vocabulary of the specification *)

(** "The base name with its extension replaced by [new]": the extension,
    when the name has one, is cut off the end and [new] put in its place. *)
Definition replace_extension (name new : string) : string :=
  substring 0 (String.length name - String.length (name_suffix name)) name ++ new.

(** No filename was supplied with the upload. *)
Definition no_filename (file : upload) : Prop :=
  filename file = None \/ filename file = Some "".

(** The rules of a clip plan entry, in the order the specification lists
    them. *)
Inductive rule : Type :=
  | NotAnObject
  | MissingKey
  | NotNumeric
  | Negative
  | NotIncreasing.

(** A JSON number, as the specification's "numeric": booleans are not. *)
Definition json_number (v : json) : option pynum :=
  match v with
  | JInt z => Some (PInt z)
  | JFloat f => Some (PFloat f)
  | _ => None
  end.



(** The text of the error for rule [r] at index [i]. *)
Definition rule_text (i : nat) (r : rule) : string :=
  "Clip " ++ str_nat i ++
  match r with
  | NotAnObject => " must be a dictionary"
  | MissingKey => " must have 'start' and 'end' keys"
  | NotNumeric => " start and end must be numbers"
  | Negative => " start and end must be non-negative"
  | NotIncreasing => " end must be greater than start"
  end.


(** The end time of a plan entry. *)
Definition end_of (clip : json) : option pynum :=
  match clip with
  | JDict d => d !! "end" ≫= as_number
  | _ => None
  end.
Definition start_of (clip : json) : option pynum :=
  match clip with
  | JDict d => d !! "start" ≫= as_number
  | _ => None
  end.


(** What validation has established about an entry. *)
Definition valid_clip (c : json) : Prop :=
  exists s e, start_of c = Some s /\ end_of c = Some e /\
              py_lt s (PInt 0) = false /\ py_lt e (PInt 0) = false /\ py_le e s = false.

(** The last character of a string. *)
Fixpoint last_char (s : string) : option ascii :=
  match s with
  | EmptyString => None
  | String c r => match last_char r with Some c' => Some c' | None => Some c end
  end.

(** The name of archive entry [i] (0-based) in a plan of [total] entries:
    [{base}_clip.mp4] for a single entry, else [{base}_clip_{i+1}.mp4]. *)
Definition entry_name (base : string) (total i : nat) : string :=
  if (total =? 1)%nat then base ++ "_clip.mp4"
  else base ++ "_clip_" ++ str_nat (S i) ++ ".mp4".



(** *** Vocabulary for [cleanup_files] *)

(** What [cleanup_files] does with one entry of its list. *)
Definition attempt (file_path : option string) (w : world) : world :=
  match truthy file_path with
  | Some p =>
      if path_exists p w then
        snd ((if path_isdir p w then shutil_rmtree p else os_remove p) w)
      else w
  | None => w
  end.

(** The system refuses to remove [p]: the call raises and changes nothing. *)
Definition refused (p : string) (w : world) : Prop :=
  exists e, (if path_isdir p w then shutil_rmtree p else os_remove p) w = (inl e, w).

(** Nothing is left to do for [p]: it is absent, or its removal is refused. *)
Definition settled (p : string) (w : world) : Prop :=
  path_exists p w = false \/ refused p w.

(** [n] is not among the entries in [gone]. *)
Definition kept (gone : list string) (n : string) : bool :=
  negb (existsb (String.eqb n) gone).

(** The first entry of [vs] is pinned. *)
Definition head_pinned (w : world) (vs : list string) : bool :=
  match vs with
  | v :: _ => is_pinned w v
  | [] => false
  end.

(** [cleanup_files] changes nothing at [p]: it is absent, a pinned file, or
    a directory whose first entry to unlink is pinned. *)
Definition stuck (p : string) (w : world) : Prop :=
  path_exists p w = false \/
  (path_exists p w = true /\ path_isdir p w = false /\ is_pinned w p = true) \/
  (path_isdir p w = true /\ head_pinned w (tree_entries p w) = true).

Definition unpinned (w : world) (g : string) : Prop := is_pinned w g = false.

(** The world after [cleanup_files l]. *)
Definition sweep (l : list (option string)) (w : world) : world :=
  fold_left (fun w fp => attempt fp w) l w.

(** [q] is an entry of the list or lies below one. *)
Definition listed (l : list (option string)) (q : string) : Prop :=
  exists fp p, In fp l /\ truthy fp = Some p /\ (q = p \/ below p q = true).



(** The output paths of a plan of [total] entries, in plan order. *)
Definition clip_outputs (base : string) (total : nat) : list string :=
  List.map (fun j => in_temp (entry_name base total j)) (seq 0 total).

(** The text of the 400 for an upload that is not a video. *)
Definition invalid_file_type : exn :=
  HTTPException 400 [Lit "Invalid file type. Please upload a video file."].

(** The string contains a [/]. *)
Fixpoint has_slash (s : string) : bool :=
  match s with
  | EmptyString => false
  | String c r => Ascii.eqb c slash || has_slash r
  end.

(** The string contains a dot. *)
Fixpoint has_dot (s : string) : bool :=
  match s with
  | EmptyString => false
  | String c r => Ascii.eqb c dot || has_dot r
  end.

(** What may stand before the base name in a filename: nothing, or
    directories closed by a [/]. *)
Definition directory_part (dir : string) : Prop := dir = "" \/ exists d, dir = d ++ "/".

(** The number a start or end value stands for when a boolean counts as a
    number: 1 for true, 0 for false, and a JSON number for itself. *)
Definition number_or_boolean (v : json) : option pynum :=
  match v with
  | JBool b => Some (PInt (Z.b2z b))
  | v => json_number v
  end.

(** What the checks after the test for numbers answer at index [i] for the
    numbers [x] and [y] of start and end. *)
Definition range_check (i : nat) (x y : pynum) : option string :=
  if py_lt x (PInt 0) || py_lt y (PInt 0) then Some (rule_text i Negative)
  else if py_le y x then Some (rule_text i NotIncreasing)
  else None.

(** ** Sample requests *)

Definition movie : upload := Upload (Some "movie.mp4") (Some "video/mp4") "bytes".

Definition entries_5_10_20_25 : list json :=
  [JDict {[ "start" := JInt 5; "end" := JInt 10 ]};
   JDict {[ "start" := JInt 20; "end" := JInt 25 ]}].
Definition plan_5_10_20_25 : json := JList entries_5_10_20_25.

(** Empty scratch storage, a source of [seconds] seconds and an engine with
    the given behaviour. *)
Definition fresh_world (seconds : Z) (script : list outcome) : world :=
  World [] ∅ ["k3x9" ; "q7wz"; "m2vb"] [inr (PFloat (Ffin seconds 0)); inr (PFloat (Ffin seconds 0))]
        script [].

Definition ok (data : string) : outcome := Outcome None (Some data).
Definition fails (msg : string) : outcome := Outcome (Some msg) None.
Definition silent : outcome := Outcome None None.

(** The name the source of [movie] is persisted under in a fresh world. *)
Definition movie_source : string := "temp/tmpk3x9.mp4".

(** Two uploads that differ in bytes, filename and media type. *)
Definition first_upload : upload := Upload (Some "movie.mp4") (Some "video/mp4") "first".
Definition second_upload : upload := Upload (Some "movie.avi") (Some "video/x-msvideo") "second".
Definition plan_0_4 : json := JList [JDict {[ "start" := JInt 0; "end" := JInt 4 ]}].

(** Scratch storage with a pinned file, a directory holding a pinned entry
    between two others, and a plain file. *)
Definition cluttered : world :=
  World [("temp/a.mp4", File "a"); ("temp/d", Dir); ("temp/d/x", File "x");
         ("temp/d/y", File "y"); ("temp/d/z", File "z"); ("temp/b.mp4", File "b")]
        {[ "temp/a.mp4"; "temp/d/y" ]} [] [] [] [].

(** The plan entry [{"start": false, "end": true}]. *)
Definition false_to_true : gmap string json := {[ "start" := JBool false; "end" := JBool true ]}.


(** * Properties *)

(** ** Basic facts about the monad and the file listing *)

Lemma substring_all (s : string) : substring 0 (String.length s) s = s.
Proof. induction s as [|c s IH]; simpl; [reflexivity | now rewrite IH]. Qed.

Lemma substring_length (s : string) (i n : nat) :
  (i + n <= String.length s)%nat -> String.length (substring i n s) = n.
Proof.
  revert i n. induction s as [|c s IH]; intros i n H; simpl in *.
  - assert (i = 0 /\ n = 0)%nat as [-> ->] by lia. reflexivity.
  - destruct i as [|i].
    + destruct n as [|n]; simpl; [reflexivity|]. rewrite IH; [reflexivity | lia].
    + apply IH. lia.
Qed.

Lemma rfind_dot_lt (s : string) (i : nat) :
  rfind_dot s = Some i -> (i < String.length s)%nat.
Proof.
  revert i. induction s as [|c s IH]; intros i H; simpl in *; [discriminate|].
  destruct (rfind_dot s) as [j|] eqn:E.
  - injection H as <-. specialize (IH j eq_refl). lia.
  - destruct (Ascii.eqb c dot); [injection H as <-; lia | discriminate].
Qed.

Lemma stem_is_cut (name : string) :
  name_stem name =
  substring 0 (String.length name - String.length (name_suffix name)) name.
Proof.
  unfold name_stem, name_suffix.
  destruct (suffix_start name) as [i|] eqn:E.
  - unfold suffix_start in E.
    destruct (rfind_dot name) as [j|] eqn:Ej; [|discriminate].
    destruct ((0 <? j) && (j <? String.length name - 1))%nat; [|discriminate].
    injection E as ->. apply rfind_dot_lt in Ej.
    rewrite substring_length by lia. f_equal. lia.
  - simpl. rewrite Nat.sub_0_r. symmetry. apply substring_all.
Qed.

Section MonadFacts.
Context {St A B : Type}.

Lemma bind_inr (m : M St A) (k : A -> M St B) s b s' :
  bind m k s = (inr b, s') ->
  exists a s1, m s = (inr a, s1) /\ k a s1 = (inr b, s').
Proof.
  unfold bind. destruct (m s) as [[e|a] s1]; intros H; [discriminate|].
  exists a, s1. split; [reflexivity | exact H].
Qed.

Lemma bind_ok (m : M St A) (k : A -> M St B) s a s1 :
  m s = (inr a, s1) -> bind m k s = k a s1.
Proof. unfold bind. intros ->. reflexivity. Qed.

Lemma bind_err (m : M St A) (k : A -> M St B) s e s1 :
  m s = (inl e, s1) -> bind m k s = (inl e, s1).
Proof. unfold bind. intros ->. reflexivity. Qed.

Lemma bind_raise_not_inr (m : M St A) (e : exn) s (b : B) s' :
  bind m (fun _ => raise e) s <> (inr b, s').
Proof. unfold bind, raise. destruct (m s) as [[?|?] ?]; discriminate. Qed.

Lemma try_except_inr (m : M St A) (h : exn -> M St A) s a s' :
  try_except m h s = (inr a, s') ->
  m s = (inr a, s') \/ exists e s1, m s = (inl e, s1) /\ h e s1 = (inr a, s').
Proof.
  unfold try_except. destruct (m s) as [[e|a0] s1]; intros H.
  - right. exists e, s1. split; [reflexivity | exact H].
  - left. exact H.
Qed.
End MonadFacts.

Lemma with_locals_inr {F A} (f0 : F) (m : M (F * world) A) w a w' :
  with_locals f0 m w = (inr a, w') -> exists f', m (f0, w) = (inr a, (f', w')).
Proof.
  unfold with_locals. destruct (m (f0, w)) as [r [f' w1]]. simpl.
  intros H. injection H as -> ->. exists f'. reflexivity.
Qed.

Lemma convert_handler_raises {A} e s (a : A) s' : Convert.handler e s <> (inr a, s').
Proof.
  destruct e; simpl; try discriminate.
  - unfold bind at 1. simpl. apply bind_raise_not_inr.
  - unfold bind at 1. simpl. apply bind_raise_not_inr.
Qed.

Lemma convert_body_filename file s r s' :
  Convert.body file s = (inr r, s') ->
  resp_filename (response r) = Convert.audio_filename file.
Proof.
  unfold Convert.body. intros H.
  repeat (apply bind_inr in H; destruct H as (? & ? & _ & H)).
  destruct (negb _).
  - exfalso. exact (bind_raise_not_inr _ _ _ _ _ H).
  - injection H as <- _. reflexivity.
Qed.

(** ** Parsing and structural validation *)

Lemma parse_clips_error (loaded : loads_error + json) (e : exn) :
  parse_clips loaded = inl e ->
  (exists d, e = HTTPException 400 d) \/
  (exists msg, loaded = inl (LoadsOther msg) /\ e = OtherException [Lit msg]).
Proof.
  unfold parse_clips. destruct loaded as [[msg|msg|msg]|v].
  - intros [= <-]. eauto.
  - intros [= <-]. eauto.
  - intros [= <-]. eauto.
  - destruct (validate_clips v); intros [= <-]. eauto.
Qed.

(** A request whose plan is rejected leaves the world as it found it. *)
Lemma clip_video_rejected (file : upload) (loaded : loads_error + json) (e : exn) (w : world) :
  parse_clips loaded = inl e ->
  exists e', Clip.clip_video file loaded w = (inl e', w) /\
             (not_video file = false -> e' = e) /\
             ((forall msg, loaded <> inl (LoadsOther msg)) -> exists d, e' = HTTPException 400 d).
Proof.
  intros H. unfold Clip.clip_video. destruct (not_video file).
  - eexists. split; [reflexivity|]. split; [discriminate | eauto].
  - rewrite H. exists e. split; [reflexivity|]. split; [reflexivity|].
    intros Hno. destruct (parse_clips_error _ _ H) as [Hd | (msg & Hl & _)]; [exact Hd|].
    exfalso. exact (Hno msg Hl).
Qed.

(** C9: when the plan fails parsing or structural validation the request
    fails and scratch storage, like the rest of the world, is as it was
    before the request: nothing is written, the upload included.  For an
    upload that is a video the error is the one of the parser, and the
    error is a 400 unless [json.loads] raised an exception that neither
    [except] clause catches. *)
Theorem clip_parse_failure_writes_nothing
    (file : upload) (loaded : loads_error + json) (e : exn) (w : world) :
  parse_clips loaded = inl e ->
  exists e' w', Clip.clip_video file loaded w = (inl e', w') /\
                w' = w /\ files w' = files w /\ calls w' = calls w /\
                (not_video file = false -> e' = e) /\
                ((forall msg, loaded <> inl (LoadsOther msg)) ->
                 exists d, e' = HTTPException 400 d).
Proof.
  intros H. destruct (clip_video_rejected file loaded e w H) as (e' & Hr & He & Hd).
  exists e', w. repeat split; assumption.
Qed.

Lemma clip_parse_failure_writes_nothing_witness :
  exists e' w',
    Clip.clip_video movie (inr (JList [])) (fresh_world 30 []) = (inl e', w') /\
    w' = fresh_world 30 [] /\ files w' = [] /\ calls w' = [] /\
    (not_video movie = false ->
     e' = HTTPException 400 [Lit "At least one clip must be specified"]) /\
    ((forall msg, (inr (JList []) : loads_error + json) <> inl (LoadsOther msg)) ->
     exists d, e' = HTTPException 400 d).
Proof.
  apply (clip_parse_failure_writes_nothing movie (inr (JList []))
           (HTTPException 400 [Lit "At least one clip must be specified"])
           (fresh_world 30 [])).
  reflexivity.
Defined.








(** The second entry of this plan is the first to break a rule. *)
Example parse_clips_names_entry_1 :
  parse_clips (inr (JList [JDict {[ "start" := JInt 0; "end" := JInt 4 ]};
                           JDict {[ "start" := JInt 9; "end" := JInt 3 ]};
                           JStr "x"]))
  = inl (HTTPException 400 [Lit "Clip 1 end must be greater than start"]).
Proof. vm_compute. reflexivity. Qed.

(** ** Failures inside the second [try] block *)

(** C1: the plan has two entries and the engine fails on the second.  The
    request fails with a 500 naming clip 2, and the source, the first clip
    and the partly written archive are all still in scratch storage: the
    [HTTPException] raised in the loop is re-raised by [except HTTPException]
    without any cleanup.  The same holds when the engine returns without
    leaving the file. *)
Theorem clip_failure_leaves_files :
  (exists w',
     Clip.clip_video movie (inr plan_5_10_20_25)
       (fresh_world 30 [ok "clip"; fails "ffmpeg error"])
     = (inl (HTTPException 500 [Lit "Failed to create clip 2: "; Lit "ffmpeg error"]), w') /\
     path_exists movie_source w' = true /\
     path_exists "temp/movie_clip_1.mp4" w' = true /\
     fs_lookup "temp/movie_clips.zip" (files w') = Some (Archive ["movie_clip_1.mp4"])) /\
  (exists w',
     Clip.clip_video movie (inr plan_5_10_20_25)
       (fresh_world 30 [ok "clip"; silent])
     = (inl (HTTPException 500 [Lit "Clip 2 was not created successfully"]), w') /\
     path_exists movie_source w' = true /\
     path_exists "temp/movie_clip_1.mp4" w' = true /\
     fs_lookup "temp/movie_clips.zip" (files w') = Some (Archive ["movie_clip_1.mp4"])).
Proof.
  split; eexists; (split; [vm_compute; reflexivity |]); repeat split.
Qed.

(** C2: against a source of 22 seconds the plan fails duration validation
    at entry 1, and the persisted source is still in scratch storage when
    the 400 is raised: nothing deletes it on this path. *)
Theorem duration_failure_leaves_source :
  exists w',
    Clip.clip_video movie (inr plan_5_10_20_25) (fresh_world 22 [])
    = (inl (HTTPException 400
              [Lit "Clip 1 end time ("; Num (PInt 25);
               Lit "s) exceeds video duration ("; Num2f (PFloat (Ffin 22 0)); Lit "s)"]),
       w') /\
    fs_lookup movie_source (files w') = Some (File "bytes").
Proof. eexists. split; [vm_compute; reflexivity | reflexivity]. Qed.

(** C3: two requests with distinct uploads are given the same archive path
    and the same clip path; the second request overwrites the outputs of the
    first, and the cleanup scheduled by the first deletes the archive the
    second is about to send.  The two /convert requests likewise share their
    MP3 path.  Only the persisted sources have names of their own. *)
Theorem distinct_uploads_share_paths :
  (exists r1 w1 r2 w2 w3,
     Clip.clip_video first_upload (inr plan_0_4) (fresh_world 30 [ok "a"; ok "b"])
       = (inr r1, w1) /\
     Clip.clip_video second_upload (inr plan_0_4) w1 = (inr r2, w2) /\
     resp_path (response r1) = resp_path (response r2) /\
     path_exists (resp_path (response r2)) w2 = true /\
     run_background (background r1) w2 = (inr tt, w3) /\
     path_exists (resp_path (response r2)) w3 = false) /\
  (exists r1 w1 r2 w2 w3,
     Convert.convert_video_to_audio first_upload (fresh_world 30 [ok "a"; ok "b"])
       = (inr r1, w1) /\
     Convert.convert_video_to_audio second_upload w1 = (inr r2, w2) /\
     resp_path (response r1) = resp_path (response r2) /\
     path_exists (resp_path (response r2)) w2 = true /\
     run_background (background r1) w2 = (inr tt, w3) /\
     path_exists (resp_path (response r2)) w3 = false).
Proof.
  split.
  - do 5 eexists. split; [vm_compute; reflexivity|].
    split; [vm_compute; reflexivity|].
    split; [reflexivity|]. split; [vm_compute; reflexivity|].
    split; [vm_compute; reflexivity|]. vm_compute; reflexivity.
  - do 5 eexists. split; [vm_compute; reflexivity|].
    split; [vm_compute; reflexivity|].
    split; [reflexivity|]. split; [vm_compute; reflexivity|].
    split; [vm_compute; reflexivity|]. vm_compute; reflexivity.
Qed.

(** ** Validation against the duration of the source *)

Lemma check_clip_fields (i : nat) (c : json) :
  check_clip i c = None ->
  valid_clip c.
Proof.
  unfold valid_clip, check_clip, start_of, end_of. intros H.
  destruct c as [| | | | |l|d]; try discriminate.
  destruct (d !! "start") as [s|]; [|discriminate].
  destruct (d !! "end") as [e|]; [|discriminate]. simpl.
  destruct (as_number s) as [x|]; [|discriminate].
  destruct (as_number e) as [y|]; [|discriminate].
  destruct (py_lt x (PInt 0) || py_lt y (PInt 0)) eqn:En; [discriminate|].
  destruct (py_le y x) eqn:El; [discriminate|].
  apply orb_false_elim in En as [Enx Eny].
  exists x, y. auto.
Qed.

Lemma check_clips_fields (n : nat) (l : list json) :
  check_clips n l = None ->
  Forall valid_clip l.
Proof.
  revert n. induction l as [|c l IH]; intros n H; [constructor|].
  simpl in H. destruct (check_clip n c) eqn:Ec; [discriminate|].
  constructor; [exact (check_clip_fields _ _ Ec) | exact (IH _ H)].
Qed.

Lemma parse_clips_valid (loaded : loads_error + json) (l : list json) :
  parse_clips loaded = inr l ->
  l <> [] /\
  Forall valid_clip l.
Proof.
  unfold parse_clips. destruct loaded as [[m|m|m]|v]; try discriminate.
  destruct v as [| | | | |l0|d]; simpl; try discriminate.
  destruct (check_clips 0 l0) eqn:Ec; [discriminate|].
  destruct (length l0 =? 0)%nat eqn:El; [discriminate|].
  intros [= <-]. split.
  - intros ->. discriminate.
  - exact (check_clips_fields _ _ Ec).
Qed.

Lemma subscript_end {St} (c : json) (e : pynum) (st : St) :
  end_of c = Some e -> subscript c "end" st = (inr e, st).
Proof.
  unfold end_of, subscript. destruct c; try discriminate.
  destruct (d !! "end") as [v|]; [|discriminate]. simpl.
  intros ->. reflexivity.
Qed.

Lemma subscript_start {St} (c : json) (x : pynum) (st : St) :
  start_of c = Some x -> subscript c "start" st = (inr x, st).
Proof.
  unfold start_of, subscript. destruct c; try discriminate.
  destruct (d !! "start") as [v|]; [|discriminate]. simpl.
  intros ->. reflexivity.
Qed.


Lemma check_duration_pass {St} (d : pynum) (l : list json) (n : nat) (st : St) :
  Forall (fun c => exists e, end_of c = Some e /\ py_gt e d = false) l ->
  Clip.check_duration d n l st = (inr tt, st).
Proof.
  intros H. revert n. induction H as [|c l (e & He & Hle) _ IH]; intros n; [reflexivity|].
  simpl. erewrite bind_ok by (apply subscript_end; eassumption).
  rewrite Hle. apply IH.
Qed.



(** ** A request whose extractions all succeed *)

Lemma last_char_app (s t : string) :
  t <> "" -> last_char (s ++ t) = last_char t.
Proof.
  intros Ht. induction s as [|c s IH]; simpl; [reflexivity|].
  rewrite IH. destruct t as [|c' t]; [congruence|].
  simpl. destruct (last_char t); reflexivity.
Qed.

Lemma app_nonempty (s t : string) : t <> "" -> s ++ t <> "".
Proof. destruct s; simpl; [auto | discriminate]. Qed.

Lemma clip_path_not_zip (base zbase : string) (total i : nat) :
  in_temp (Clip.clip_filename base total i) <> in_temp (zbase ++ "_clips.zip").
Proof.
  intros H. apply (f_equal last_char) in H. unfold in_temp, Clip.clip_filename in H.
  rewrite !last_char_app in H; try discriminate;
    repeat (apply app_nonempty); try discriminate.
Qed.

Lemma clip_filename_entry (base : string) (total i : nat) :
  Clip.clip_filename base total i = entry_name base total i.
Proof.
  unfold Clip.clip_filename, entry_name.
  destruct (total =? 1)%nat; [reflexivity|].
  rewrite Nat.add_1_r. reflexivity.
Qed.









(** The example of the specification: two entries against a source of 30
    seconds give an archive with [movie_clip_1.mp4] and [movie_clip_2.mp4]. *)
Example clip_two_entries :
  exists r w',
    Clip.clip_video movie (inr plan_5_10_20_25) (fresh_world 30 [ok "a"; ok "b"])
      = (inr r, w') /\
    fs_lookup (resp_path (response r)) (files w')
      = Some (Archive ["movie_clip_1.mp4"; "movie_clip_2.mp4"]).
Proof. do 2 eexists. split; vm_compute; reflexivity. Qed.

(** ** [cleanup_files] *)

Lemma cleanup_files_cons (fp : option string) (rest : list (option string)) (w : world) :
  cleanup_files (fp :: rest) w = cleanup_files rest (attempt fp w).
Proof.
  cbn [cleanup_files]. unfold attempt, bind at 1.
  destruct (truthy fp) as [p|]; [|reflexivity].
  unfold bind at 1, get at 1.
  destruct (path_exists p w); [|reflexivity].
  unfold try_except.
  destruct ((if path_isdir p w then shutil_rmtree p else os_remove p) w) as [[e|[]] w1];
    reflexivity.
Qed.

Lemma cleanup_files_run (l : list (option string)) (w : world) :
  cleanup_files l w = (inr tt, fold_left (fun w fp => attempt fp w) l w).
Proof.
  revert w. induction l as [|fp l IH]; intros w; [reflexivity|].
  rewrite cleanup_files_cons, IH. reflexivity.
Qed.

Lemma set_files_same (w : world) : set_files (files w) w = w.
Proof. destruct w. reflexivity. Qed.

Lemma fs_unlink_nil (fs : list (string * node)) : fs_unlink [] fs = fs.
Proof.
  unfold fs_unlink. induction fs as [|e fs IH]; simpl; [reflexivity | now f_equal].
Qed.

Lemma fs_lookup_unlink (p : string) (gone : list string) (fs : list (string * node)) :
  fs_lookup p (fs_unlink gone fs) = if kept gone p then fs_lookup p fs else None.
Proof.
  unfold fs_lookup, fs_unlink, kept.
  induction fs as [|[q k] fs IH]; simpl.
  - destruct (negb _); reflexivity.
  - destruct (String.eqb q p) eqn:Eq.
    + apply String.eqb_eq in Eq. subst q.
      destruct (existsb (String.eqb p) gone) eqn:Eg; simpl.
      * rewrite IH. reflexivity.
      * rewrite String.eqb_refl. reflexivity.
    + destruct (negb (existsb (String.eqb q) gone)); simpl.
      * rewrite Eq. exact IH.
      * exact IH.
Qed.

Lemma names_unlink (gone : list string) (fs : list (string * node)) :
  List.map fst (fs_unlink gone fs) = List.filter (kept gone) (List.map fst fs).
Proof.
  unfold fs_unlink, kept. induction fs as [|[q k] fs IH]; simpl; [reflexivity|].
  destruct (negb (existsb (String.eqb q) gone)); simpl; now rewrite IH.
Qed.

Lemma filter_swap {X} (f g : X -> bool) (l : list X) :
  List.filter f (List.filter g l) = List.filter g (List.filter f l).
Proof.
  induction l as [|x l IH]; simpl; [reflexivity|].
  destruct (f x) eqn:Ef, (g x) eqn:Eg; simpl; rewrite ?Ef, ?Eg, IH; reflexivity.
Qed.

Lemma unlinkable_set_files (fs : list (string * node)) (w : world) (vs : list string) :
  unlinkable (set_files fs w) vs = unlinkable w vs.
Proof. induction vs as [|v vs IH]; simpl; [reflexivity|]. rewrite IH. reflexivity. Qed.

Lemma unlinkable_unpinned (w : world) (vs : list string) :
  Forall (unpinned w) (unlinkable w vs).
Proof.
  induction vs as [|v vs IH]; simpl; [constructor|].
  destruct (is_pinned w v) eqn:E; [constructor|]. constructor; assumption.
Qed.

(** The entries that are unlinked are a prefix, followed by nothing or by a
    pinned entry. *)
Lemma unlinkable_split (w : world) (vs : list string) :
  exists rest, vs = (unlinkable w vs ++ rest)%list /\
               (rest = [] \/ head_pinned w rest = true).
Proof.
  induction vs as [|v vs (rest & Hvs & Hrest)]; simpl.
  - exists []. auto.
  - destruct (is_pinned w v) eqn:E.
    + exists (v :: vs). split; [reflexivity|]. right. exact E.
    + exists rest. split; [simpl; congruence | exact Hrest].
Qed.

Lemma unlinkable_head_pinned (w : world) (vs : list string) :
  head_pinned w vs = true -> unlinkable w vs = [].
Proof. destruct vs as [|v vs]; simpl; [discriminate|]. intros ->. reflexivity. Qed.

Lemma kept_pinned (w : world) (gone : list string) (v : string) :
  Forall (unpinned w) gone -> is_pinned w v = true -> kept gone v = true.
Proof.
  unfold kept. intros Hg Hv. induction Hg as [|g gone Hgu _ IH]; simpl; [reflexivity|].
  destruct (String.eqb v g) eqn:E; simpl; [|exact IH].
  apply String.eqb_eq in E. subst g. unfold unpinned in Hgu. congruence.
Qed.

Lemma kept_self (gone : list string) : List.filter (kept gone) gone = [].
Proof.
  assert (H : forall l, (forall x, In x l -> In x gone) -> List.filter (kept gone) l = []).
  { induction l as [|x l IH]; intros Hin; simpl; [reflexivity|].
    assert (kept gone x = false) as ->.
    { unfold kept. apply negb_false_iff, existsb_exists. exists x.
      split; [apply Hin; left; reflexivity | apply String.eqb_refl]. }
    apply IH. intros y Hy. apply Hin. right. exact Hy. }
  apply H. auto.
Qed.

Lemma head_pinned_filter (w : world) (gone vs : list string) :
  Forall (unpinned w) gone -> head_pinned w vs = true ->
  head_pinned w (List.filter (kept gone) vs) = true.
Proof.
  intros Hg. destruct vs as [|v vs]; simpl; [discriminate|]. intros Hv.
  rewrite (kept_pinned w gone v Hg Hv). simpl. exact Hv.
Qed.

Lemma prefix_length (a b : string) :
  String.prefix a b = true -> (String.length a <= String.length b)%nat.
Proof.
  revert b. induction a as [|c a IH]; intros b H; simpl in *; [lia|].
  destruct b as [|c' b]; [cbn [String.prefix] in H; discriminate|].
  cbn [String.prefix] in H.
  destruct (ascii_dec c c') as [->|Hne]; [|discriminate H].
  simpl. specialize (IH b H). lia.
Qed.

Lemma string_app_length (a b : string) :
  String.length (a ++ b) = (String.length a + String.length b)%nat.
Proof. induction a as [|c a IH]; simpl; [reflexivity | now rewrite IH]. Qed.

Lemma below_irrefl (p : string) : below p p = false.
Proof.
  unfold below. destruct (String.prefix (p ++ "/") p) eqn:E; [|reflexivity].
  apply prefix_length in E. rewrite string_app_length in E. simpl in E. lia.
Qed.

Lemma tree_entries_unlink (p : string) (gone : list string) (w : world) :
  kept gone p = true ->
  tree_entries p (set_files (fs_unlink gone (files w)) w)
  = List.filter (kept gone) (tree_entries p w).
Proof.
  intros Hp. unfold tree_entries. cbn [files set_files].
  rewrite names_unlink, filter_swap, List.filter_app. simpl. rewrite Hp. reflexivity.
Qed.

Lemma path_exists_unlink (p : string) (gone : list string) (w : world) :
  path_exists p (set_files (fs_unlink gone (files w)) w)
  = kept gone p && path_exists p w.
Proof.
  unfold path_exists. cbn [files set_files]. rewrite fs_lookup_unlink.
  destruct (kept gone p); reflexivity.
Qed.

Lemma path_isdir_unlink (p : string) (gone : list string) (w : world) :
  path_isdir p (set_files (fs_unlink gone (files w)) w)
  = kept gone p && path_isdir p w.
Proof.
  unfold path_isdir. cbn [files set_files]. rewrite fs_lookup_unlink.
  destruct (kept gone p); reflexivity.
Qed.

Lemma isdir_exists (p : string) (w : world) :
  path_isdir p w = true -> path_exists p w = true.
Proof. unfold path_isdir, path_exists. destruct (fs_lookup p (files w)) as [[]|]; auto. Qed.

(** Unlinking entries that are not pinned keeps a stuck path stuck. *)
Lemma stuck_unlink (p : string) (gone : list string) (w : world) :
  Forall (unpinned w) gone -> stuck p w ->
  stuck p (set_files (fs_unlink gone (files w)) w).
Proof.
  intros Hg Hs. unfold stuck.
  rewrite path_exists_unlink, path_isdir_unlink.
  destruct (kept gone p) eqn:Hk; [|left; reflexivity]. simpl.
  destruct Hs as [Hs | [(He & Hd & Hp) | (Hd & Hh)]].
  - left. exact Hs.
  - right. left. auto.
  - right. right. split; [exact Hd|].
    rewrite tree_entries_unlink by exact Hk.
    apply (head_pinned_filter w gone _ Hg Hh).
Qed.

Lemma os_remove_pinned (p : string) (w : world) :
  path_exists p w = true -> path_isdir p w = false -> is_pinned w p = true ->
  exists e, os_remove p w = (inl e, w).
Proof.
  unfold path_exists, path_isdir, os_remove. intros He Hd Hp.
  destruct (fs_lookup p (files w)) as [[]|]; try discriminate; rewrite Hp; eauto.
Qed.

Lemma rmtree_head_pinned (p : string) (w : world) :
  head_pinned w (tree_entries p w) = true ->
  exists e, shutil_rmtree p w = (inl e, w).
Proof.
  intros Hh. unfold shutil_rmtree. cbv zeta. rewrite (unlinkable_head_pinned _ _ Hh).
  rewrite fs_unlink_nil, set_files_same.
  destruct (Nat.eqb_spec (length (@nil string)) (length (tree_entries p w))) as [E|E].
  - unfold tree_entries in E. rewrite length_app in E. simpl in E. lia.
  - eauto.
Qed.

Lemma stuck_refused (p : string) (w : world) : stuck p w -> settled p w.
Proof.
  intros [Hs | [(He & Hd & Hp) | (Hd & Hh)]].
  - left. exact Hs.
  - right. unfold refused. rewrite Hd. apply os_remove_pinned; assumption.
  - right. unfold refused. rewrite Hd. apply rmtree_head_pinned. exact Hh.
Qed.

Lemma stuck_attempt (fp : option string) (p : string) (w : world) :
  truthy fp = Some p -> stuck p w -> attempt fp w = w.
Proof.
  intros Ht Hs. unfold attempt. rewrite Ht.
  destruct Hs as [Hs | [(He & Hd & Hp) | (Hd & Hh)]].
  - rewrite Hs. reflexivity.
  - rewrite He, Hd. destruct (os_remove_pinned p w He Hd Hp) as [e ->]. reflexivity.
  - rewrite (isdir_exists _ _ Hd), Hd.
    destruct (rmtree_head_pinned p w Hh) as [e ->]. reflexivity.
Qed.

(** One entry of the list only unlinks entries that are not pinned. *)
Lemma attempt_unlinks (fp : option string) (w : world) :
  exists gone, Forall (unpinned w) gone /\
               attempt fp w = set_files (fs_unlink gone (files w)) w.
Proof.
  assert (Hnone : exists gone, Forall (unpinned w) gone /\
                               w = set_files (fs_unlink gone (files w)) w).
  { exists []. split; [constructor|]. now rewrite fs_unlink_nil, set_files_same. }
  unfold attempt. destruct (truthy fp) as [p|]; [|exact Hnone].
  destruct (path_exists p w); [|exact Hnone].
  destruct (path_isdir p w).
  - unfold shutil_rmtree. exists (unlinkable w (tree_entries p w)).
    split; [apply unlinkable_unpinned|].
    destruct (_ =? _)%nat; reflexivity.
  - unfold os_remove. destruct (fs_lookup p (files w)) as [[]|]; try exact Hnone.
    + destruct (is_pinned w p) eqn:Hp; [exact Hnone|].
      exists [p]. split; [repeat constructor; exact Hp | reflexivity].
    + destruct (is_pinned w p) eqn:Hp; [exact Hnone|].
      exists [p]. split; [repeat constructor; exact Hp | reflexivity].
Qed.

Lemma kept_single (p : string) : kept [p] p = false.
Proof. unfold kept. simpl. rewrite String.eqb_refl. reflexivity. Qed.

(** After its own turn a path is stuck. *)
Lemma attempt_stuck (fp : option string) (p : string) (w : world) :
  truthy fp = Some p -> stuck p (attempt fp w).
Proof.
  intros Ht. unfold attempt. rewrite Ht.
  destruct (path_exists p w) eqn:He; [|left; exact He].
  destruct (path_isdir p w) eqn:Hd.
  - unfold shutil_rmtree.
    set (vs := tree_entries p w). set (gone := unlinkable w vs).
    assert (Hw : snd (if (length gone =? length vs)%nat
                      then (inr tt, set_files (fs_unlink gone (files w)) w)
                      else (inl (OtherException [Lit "PermissionError"]),
                            set_files (fs_unlink gone (files w)) w))
                 = set_files (fs_unlink gone (files w)) w).
    { destruct (_ =? _)%nat; reflexivity. }
    cbv zeta. fold vs. fold gone. rewrite Hw. clear Hw.
    unfold stuck. rewrite path_exists_unlink, path_isdir_unlink.
    destruct (kept gone p) eqn:Hk; [|left; reflexivity]. simpl.
    right. right. split; [exact Hd|].
    rewrite tree_entries_unlink by exact Hk. fold vs.
    destruct (unlinkable_split w vs) as (rest & Hvs & Hrest). fold gone in Hvs.
    destruct Hrest as [-> | Hrest].
    + exfalso. rewrite app_nil_r in Hvs.
      assert (Hin : In p gone).
      { rewrite <- Hvs. unfold vs, tree_entries. apply in_or_app. right. left. reflexivity. }
      unfold kept in Hk. apply negb_true_iff in Hk.
      assert (existsb (String.eqb p) gone = true).
      { apply existsb_exists. exists p. split; [exact Hin | apply String.eqb_refl]. }
      congruence.
    + rewrite Hvs at 1. rewrite List.filter_app, kept_self. simpl.
      apply (head_pinned_filter w gone rest); [apply unlinkable_unpinned | exact Hrest].
  - unfold os_remove. unfold path_exists in He. unfold path_isdir in Hd.
    destruct (fs_lookup p (files w)) as [n|] eqn:El; [|discriminate].
    assert (Hn : forall (X : Type) (a b : X), match n with Dir => a | _ => b end = b).
    { destruct n; try reflexivity. discriminate. }
    rewrite Hn. destruct (is_pinned w p) eqn:Hp.
    + right. left. unfold path_exists, path_isdir. cbn [snd]. rewrite El.
      split; [reflexivity|]. split; [destruct n; try reflexivity; discriminate | exact Hp].
    + left. cbn [snd]. rewrite path_exists_unlink, kept_single. reflexivity.
Qed.

Lemma sweep_keeps_stuck (l : list (option string)) (p : string) (w : world) :
  stuck p w -> stuck p (sweep l w).
Proof.
  revert w. induction l as [|fp l IH]; intros w Hs; [exact Hs|].
  apply IH. destruct (attempt_unlinks fp w) as (gone & Hg & ->).
  apply stuck_unlink; assumption.
Qed.

Lemma sweep_all_stuck (l : list (option string)) (w : world) (fp : option string) (p : string) :
  In fp l -> truthy fp = Some p -> stuck p (sweep l w).
Proof.
  revert w. induction l as [|fp0 l IH]; intros w Hin Ht; [destruct Hin|].
  destruct Hin as [-> | Hin].
  - apply sweep_keeps_stuck with (l := l). apply attempt_stuck. exact Ht.
  - apply IH; assumption.
Qed.

Lemma sweep_fixed (l : list (option string)) (w : world) :
  (forall fp p, In fp l -> truthy fp = Some p -> stuck p w) -> sweep l w = w.
Proof.
  induction l as [|fp l IH]; intros H; [reflexivity|].
  unfold sweep. simpl.
  assert (Hfp : attempt fp w = w).
  { destruct (truthy fp) as [p|] eqn:Ht.
    - apply (stuck_attempt fp p); [exact Ht | apply (H fp p); [left; reflexivity | exact Ht]].
    - unfold attempt. rewrite Ht. reflexivity. }
  rewrite Hfp. apply IH. intros fp' p Hin Ht. apply (H fp' p); [right; exact Hin | exact Ht].
Qed.

(** C7: for every list of paths and every world, [cleanup_files] returns
    without raising; what it does on a list is what it does on the front of
    the list followed by what it does on the rest, whether or not a deletion
    in the front failed; in the world it leaves, every path of the list is
    absent or is refused by the system; and running it a second time on the
    same list changes nothing. *)
Theorem cleanup_files_safe (l : list (option string)) (w : world) :
  (exists w', cleanup_files l w = (inr tt, w')) /\
  (forall l1 l2, l = (l1 ++ l2)%list ->
     cleanup_files l w = cleanup_files l2 (snd (cleanup_files l1 w))) /\
  (forall p, In (Some p) l -> p <> "" -> settled p (snd (cleanup_files l w))) /\
  snd (cleanup_files l (snd (cleanup_files l w))) = snd (cleanup_files l w).
Proof.
  split; [|split; [|split]].
  - eexists. apply cleanup_files_run.
  - intros l1 l2 ->. rewrite !cleanup_files_run. cbn [snd].
    rewrite fold_left_app. reflexivity.
  - intros p Hin Hne. rewrite cleanup_files_run. cbn [snd].
    apply stuck_refused. apply (sweep_all_stuck l w (Some p) p Hin).
    destruct p; [congruence | reflexivity].
  - rewrite !cleanup_files_run. cbn [snd].
    apply sweep_fixed. intros fp p Hin Ht. exact (sweep_all_stuck l w fp p Hin Ht).
Qed.

(** [None], an empty name, a path never created, a pinned file and a
    directory with a pinned entry: the call returns, the plain file after
    them is deleted, and the second call changes nothing. *)
Example cleanup_files_cluttered :
  let l := [None; Some ""; Some "temp/never"; Some "temp/a.mp4"; Some "temp/d";
            Some "temp/b.mp4"] in
  exists w',
    cleanup_files l cluttered = (inr tt, w') /\
    files w' = [("temp/a.mp4", File "a"); ("temp/d", Dir); ("temp/d/y", File "y");
                ("temp/d/z", File "z")] /\
    cleanup_files l w' = (inr tt, w').
Proof. eexists. split; [vm_compute; reflexivity|]. split; vm_compute; reflexivity. Qed.

(** ** What [cleanup_files] touches and what it removes *)

Lemma unlinkable_incl (w : world) (vs : list string) (g : string) :
  In g (unlinkable w vs) -> In g vs.
Proof.
  induction vs as [|v vs IH]; simpl; [auto|].
  destruct (is_pinned w v); simpl; [tauto|]. intros [-> | H]; auto.
Qed.

(** What one entry unlinks is the entry itself or lies below it. *)
Lemma attempt_unlinks_listed (fp : option string) (w : world) :
  exists gone,
    attempt fp w = set_files (fs_unlink gone (files w)) w /\
    forall g, In g gone -> exists p, truthy fp = Some p /\ (g = p \/ below p g = true).
Proof.
  assert (Hnone : exists gone, w = set_files (fs_unlink gone (files w)) w /\
     forall g, In g gone -> exists p, truthy fp = Some p /\ (g = p \/ below p g = true)).
  { exists []. split; [now rewrite fs_unlink_nil, set_files_same | intros g []]. }
  unfold attempt. destruct (truthy fp) as [p|]; [|exact Hnone].
  destruct (path_exists p w); [|exact Hnone].
  destruct (path_isdir p w).
  - unfold shutil_rmtree. exists (unlinkable w (tree_entries p w)). split.
    + cbv zeta. destruct (_ =? _)%nat; reflexivity.
    + intros g Hg. exists p. split; [reflexivity|].
      apply unlinkable_incl in Hg. unfold tree_entries in Hg.
      apply in_app_or in Hg as [Hg | [Hg | []]]; [|left; symmetry; exact Hg].
      apply filter_In in Hg as [_ Hb]. right. exact Hb.
  - unfold os_remove. destruct (fs_lookup p (files w)) as [[]|]; try exact Hnone.
    + destruct (is_pinned w p); [exact Hnone|].
      exists [p]. split; [reflexivity|]. intros g [Hg | []]. exists p. auto.
    + destruct (is_pinned w p); [exact Hnone|].
      exists [p]. split; [reflexivity|]. intros g [Hg | []]. exists p. auto.
Qed.

Lemma kept_true (gone : list string) (q : string) :
  (forall g, In g gone -> g <> q) -> kept gone q = true.
Proof.
  unfold kept. intros H. apply negb_true_iff.
  destruct (existsb (String.eqb q) gone) eqn:E; [|reflexivity].
  apply existsb_exists in E as (g & Hg & Heq). apply String.eqb_eq in Heq. subst g.
  exfalso. exact (H q Hg eq_refl).
Qed.

(** X1: [cleanup_files] changes only the file listing, never adds an entry
    or changes what an entry holds, and leaves alone every entry that is
    neither in the list nor below a path of the list. *)
Theorem cleanup_files_confined (l : list (option string)) (w w' : world) :
  cleanup_files l w = (inr tt, w') ->
  w' = set_files (files w') w /\
  (forall q n, fs_lookup q (files w') = Some n -> fs_lookup q (files w) = Some n) /\
  (forall q, ~ listed l q -> fs_lookup q (files w') = fs_lookup q (files w)).
Proof.
  rewrite cleanup_files_run. intros [= <-].
  revert w. induction l as [|fp l IH]; intros w.
  - simpl. split; [now rewrite set_files_same|]. split; auto.
  - simpl. destruct (IH (attempt fp w)) as (Hw & Hsub & Hout).
    destruct (attempt_unlinks_listed fp w) as (gone & Ha & Hg).
    split; [|split].
    + rewrite Hw at 1. rewrite Ha. reflexivity.
    + intros q n Hq. apply Hsub in Hq. rewrite Ha in Hq. cbn [files set_files] in Hq.
      rewrite fs_lookup_unlink in Hq. destruct (kept gone q); [exact Hq | discriminate].
    + intros q Hq. rewrite Hout.
      * rewrite Ha. cbn [files set_files]. rewrite fs_lookup_unlink, kept_true; [reflexivity|].
        intros g Hin ->. destruct (Hg q Hin) as (p & Ht & Hp).
        apply Hq. exists fp, p. split; [left; reflexivity | auto].
      * intros (fp' & p & Hin & Ht & Hp). apply Hq. exists fp', p.
        split; [right; exact Hin | auto].
Qed.

Lemma sweep_pinned (l : list (option string)) (w : world) :
  pinned (sweep l w) = pinned w.
Proof.
  revert w. induction l as [|fp l IH]; intros w; [reflexivity|].
  unfold sweep. simpl. fold (sweep l (attempt fp w)). rewrite IH.
  destruct (attempt_unlinks fp w) as (gone & _ & ->). reflexivity.
Qed.

Lemma is_pinned_empty (w : world) (p : string) : pinned w = ∅ -> is_pinned w p = false.
Proof. unfold is_pinned. intros ->. apply bool_decide_eq_false. set_solver. Qed.

Lemma stuck_absent (p : string) (w : world) :
  pinned w = ∅ -> stuck p w -> path_exists p w = false.
Proof.
  intros Hp [Hs | [(_ & _ & Hpin) | (_ & Hh)]]; [exact Hs | |].
  - rewrite is_pinned_empty in Hpin by exact Hp. discriminate.
  - unfold tree_entries in Hh.
    destruct (List.filter (below p) (List.map fst (files w))) as [|v vs]; simpl in Hh;
      rewrite is_pinned_empty in Hh by exact Hp; discriminate.
Qed.

Lemma cleanup_removes (l : list (option string)) (w w' : world) (p : string) :
  pinned w = ∅ -> cleanup_files l w = (inr tt, w') ->
  In (Some p) l -> p <> "" -> path_exists p w' = false /\ pinned w' = ∅.
Proof.
  intros Hp. rewrite cleanup_files_run. intros [= <-] Hin Hne.
  split; [|rewrite sweep_pinned; exact Hp].
  apply stuck_absent; [rewrite sweep_pinned; exact Hp|].
  apply (sweep_all_stuck l w (Some p) p Hin). destruct p; [congruence | reflexivity].
Qed.

(** X2: when the system refuses nothing, every path of the list is gone
    after [cleanup_files]. *)
Theorem cleanup_files_removes (l : list (option string)) (w w' : world) (p : string) :
  pinned w = ∅ -> cleanup_files l w = (inr tt, w') ->
  In (Some p) l -> p <> "" -> path_exists p w' = false.
Proof. intros Hp Hrun Hin Hne. exact (proj1 (cleanup_removes l w w' p Hp Hrun Hin Hne)). Qed.

Lemma cleanup_files_confined_witness :
  exists w',
    cleanup_files [Some "temp/d"; Some "temp/b.mp4"] cluttered = (inr tt, w') /\
    fs_lookup "temp/a.mp4" (files w') = fs_lookup "temp/a.mp4" (files cluttered).
Proof.
  eexists. split; [vm_compute; reflexivity|].
  eapply (proj2 (proj2 (cleanup_files_confined [Some "temp/d"; Some "temp/b.mp4"]
                          cluttered _ _))).
  intros (fp & p & Hin & Ht & Hp).
  destruct Hin as [<- | [<- | []]]; injection Ht as <-;
    destruct Hp as [Hp | Hp]; vm_compute in Hp; discriminate.
  Unshelve. vm_compute. reflexivity.
Defined.

Lemma cleanup_files_removes_witness :
  path_exists "temp/movie.mp3"
    (World [("temp/keep.txt", File "k")] ∅ [] [] [] []) = false.
Proof.
  apply (cleanup_files_removes [Some "temp/movie.mp3"]
           (World [("temp/keep.txt", File "k"); ("temp/movie.mp3", File "m")] ∅ [] [] [] [])
           (World [("temp/keep.txt", File "k")] ∅ [] [] [] []) "temp/movie.mp3").
  - reflexivity.
  - vm_compute. reflexivity.
  - left. reflexivity.
  - discriminate.
Defined.

(** ** The paths of [convert_video_to_audio] *)


Lemma in_temp_truthy (name : string) : truthy (Some (in_temp name)) = Some (in_temp name).
Proof. reflexivity. Qed.

Lemma in_temp_nonempty (name : string) : in_temp name <> "".
Proof. discriminate. Qed.





Lemma run_background_single (t : list (option string)) (w : world) :
  run_background [t] w = cleanup_files t w.
Proof.
  cbn [run_background]. unfold bind. rewrite cleanup_files_run. reflexivity.
Qed.







(** ** The paths of [clip_video] *)

Lemma lift_inv {F A} (m : M world A) (L L' : F) (w w' : world) (r : exn + A) :
  lift m (L, w) = (r, (L', w')) -> L' = L /\ m w = (r, w').
Proof.
  unfold lift. cbn [fst snd]. destruct (m w) as [r0 w0]. intros [= -> -> ->]. auto.
Qed.

Lemma subscript_inv {St} (c : json) (key : string) (st st' : St) (r : exn + pynum) :
  subscript c key st = (r, st') -> st' = st.
Proof.
  unfold subscript. destruct c; try (intros [= _ <-]; reflexivity).
  destruct (d !! key) as [v|]; [|intros [= _ <-]; reflexivity].
  destruct (as_number v); intros [= _ <-]; reflexivity.
Qed.

Lemma engine_call_pinned (c : call) (target : string) (w w' : world) (r : exn + unit) :
  engine_call c target w = (r, w') -> pinned w' = pinned w.
Proof.
  unfold engine_call. destruct (engine w) as [|o es]; [intros [= _ <-]; reflexivity|].
  destruct (raises o); intros [= _ <-]; reflexivity.
Qed.

Lemma zipf_write_pinned (zp cp arc : string) (w w' : world) (r : exn + unit) :
  zipf_write zp cp arc w = (r, w') -> pinned w' = pinned w.
Proof.
  unfold zipf_write. destruct (fs_lookup cp (files w)); intros [= _ <-]; reflexivity.
Qed.

(** A run of the loop that completes has registered one output path per
    entry, in plan order, and nothing else. *)
Lemma extract_clips_paths (tv base zp : string) (total : nat) (l : list json) :
  forall (i : nat) (L L' : Clip.locals) (w w' : world),
    Clip.extract_clips tv base zp total i l (L, w) = (inr tt, (L', w')) ->
    Clip.clip_paths L' =
      (Clip.clip_paths L ++
       List.map (fun j => in_temp (entry_name base total j)) (seq i (length l)))%list /\
    Clip.temp_video_path L' = Clip.temp_video_path L /\
    Clip.temp_zip_path L' = Clip.temp_zip_path L /\
    pinned w' = pinned w.
Proof.
  induction l as [|c l IH]; intros i L L' w w' H.
  - cbn in H. injection H as <- <-. cbn. rewrite app_nil_r. auto.
  - cbn [Clip.extract_clips] in H.
    apply bind_inr in H as (s & st1 & Hs & H). apply subscript_inv in Hs. subst st1.
    apply bind_inr in H as (e & st1 & He & H). apply subscript_inv in He. subst st1.
    apply bind_inr in H as ([] & [L1 w1] & Hcall & H).
    apply try_except_inr in Hcall as [Hcall | (ex & s1 & _ & Habs)]; [|discriminate Habs].
    apply lift_inv in Hcall as [-> Hcall]. apply engine_call_pinned in Hcall.
    apply bind_inr in H as (st & st1 & Hget & H). injection Hget as <- <-.
    cbn [snd] in H. destruct (negb _); [discriminate H|].
    apply bind_inr in H as ([] & [L2 w2] & Hzip & H).
    apply lift_inv in Hzip as [-> Hzip]. apply zipf_write_pinned in Hzip.
    apply bind_inr in H as ([] & [L3 w3] & Hset & H).
    injection Hset as <- <-. cbn [fst snd] in H.
    apply IH in H as (Hp & Hv & Hz & Hpin). cbn in Hp, Hv, Hz.
    split; [|split; [|split]]; try assumption.
    + rewrite Hp. cbn [length seq List.map]. rewrite <- app_assoc.
      rewrite clip_filename_entry. reflexivity.
    + congruence.
Qed.

Lemma clip_handler_raises {A} e s (a : A) s' : Clip.handler e s <> (inr a, s').
Proof.
  destruct e; simpl; try discriminate.
  - unfold bind at 1. simpl. apply bind_raise_not_inr.
  - unfold bind at 1. simpl. apply bind_raise_not_inr.
Qed.

Lemma check_duration_inv {St} (d : pynum) (l : list json) (n : nat) (st st' : St) :
  Clip.check_duration d n l st = (inr tt, st') -> st' = st.
Proof.
  revert n. induction l as [|c l IH]; intros n H; simpl in H.
  - injection H as <-. reflexivity.
  - apply bind_inr in H as (e & st1 & He & H). apply subscript_inv in He. subst st1.
    destruct (py_gt e d); [discriminate H|]. exact (IH _ H).
Qed.

Lemma NamedTemporaryFile_pinned (sfx data : string) (w w' : world) (r : exn + string) :
  NamedTemporaryFile sfx data w = (r, w') -> pinned w' = pinned w.
Proof.
  unfold NamedTemporaryFile. destruct (first_free _ _ _) as [[p rest]|];
    intros [= _ <-]; reflexivity.
Qed.

Lemma VideoFileClip_pinned (path : string) (w w' : world) (r : exn + pynum) :
  VideoFileClip path w = (r, w') -> pinned w' = pinned w.
Proof.
  unfold VideoFileClip. destruct (probes w) as [|[m|d] ps]; intros [= _ <-]; reflexivity.
Qed.

Lemma NamedTemporaryFile_inv (sfx data tv : string) (w w' : world) :
  NamedTemporaryFile sfx data w = (inr tv, w') ->
  exists rest, first_free sfx (files w) (tmp_names w) = Some (tv, rest).
Proof.
  unfold NamedTemporaryFile. destruct (first_free _ _ _) as [[p rest]|]; [|discriminate].
  intros [= -> _]. exists rest. reflexivity.
Qed.

Lemma ZipFile_pinned (path : string) (w w' : world) (r : exn + unit) :
  ZipFile path w = (r, w') -> pinned w' = pinned w.
Proof.
  unfold ZipFile. destruct (cannot_open path w); intros [= _ <-]; reflexivity.
Qed.

Lemma clip_video_inv
    (file : upload) (loaded : loads_error + json) (w w1 : world) (r : reply) :
  Clip.clip_video file loaded w = (inr r, w1) ->
  exists l tv,
    (exists rest, first_free (video_ext file) (files w) (tmp_names w) = Some (tv, rest)) /\
    parse_clips loaded = inr l /\
    response r = FileResponse (in_temp (Clip.base_filename file ++ "_clips.zip"))
                              (Clip.base_filename file ++ "_clips.zip") "application/zip" /\
    path_exists (resp_path (response r)) w1 = true /\
    background r =
      [Some tv :: Some (resp_path (response r))
       :: List.map Some (clip_outputs (Clip.base_filename file) (length l))] /\
    pinned w1 = pinned w.
Proof.
  unfold Clip.clip_video. intros H.
  destruct (not_video file); [discriminate|].
  destruct (parse_clips loaded) as [e|l] eqn:Hp; [discriminate|].
  apply with_locals_inr in H as [f' H].
  apply try_except_inr in H as [H | (e & s1 & _ & H)];
    [| exfalso; exact (clip_handler_raises _ _ _ _ H)].
  unfold Clip.body in H.
  apply bind_inr in H as (tv & [L1 wa] & Hntf & H).
  apply lift_inv in Hntf as [-> Hntf].
  pose proof (NamedTemporaryFile_inv _ _ _ _ _ Hntf) as Hfree.
  apply NamedTemporaryFile_pinned in Hntf.
  apply bind_inr in H as ([] & [L2 wb] & Hset & H). injection Hset as <- <-.
  apply bind_inr in H as (d & [L3 wc] & Hprobe & H).
  apply lift_inv in Hprobe as [-> Hprobe]. apply VideoFileClip_pinned in Hprobe.
  apply bind_inr in H as ([] & st & Hdur & H). apply check_duration_inv in Hdur. subst st.
  apply bind_inr in H as ([] & [L4 wd] & Hset & H). injection Hset as <- <-.
  apply bind_inr in H as ([] & [L5 we] & Hzip & H).
  apply lift_inv in Hzip as [-> Hzip]. apply ZipFile_pinned in Hzip.
  apply bind_inr in H as ([] & [L6 wf] & Hloop & H).
  apply extract_clips_paths in Hloop as (Hpaths & _ & _ & Hpin). cbn in Hpaths, Hpin.
  apply bind_inr in H as (st & st1 & Hget & H). injection Hget as <- <-.
  cbn [fst snd] in H.
  destruct (path_exists _ wf) eqn:Hex; cbn [negb] in H.
  2:{ exfalso. exact (bind_raise_not_inr _ _ _ _ _ H). }
  injection H as <- _ <-.
  exists l, tv. split; [exact Hfree|].
  split; [reflexivity|]. split; [reflexivity|]. split; [exact Hex|].
  split; [cbn; rewrite Hpaths; reflexivity | congruence].
Qed.

(** X7: whenever /clip returns a response: the plan was accepted; the
    response is the archive [{base}_clips.zip] with media type
    [application/zip]; the archive is in scratch storage; and the one
    cleanup scheduled lists the path [tv] that [NamedTemporaryFile] gave the
    upload in the world the request started in, the archive and one output
    path per plan entry, in plan order. *)
Theorem clip_response_shape
    (file : upload) (loaded : loads_error + json) (w w1 : world) (r : reply) :
  Clip.clip_video file loaded w = (inr r, w1) ->
  exists l tv rest,
    first_free (video_ext file) (files w) (tmp_names w) = Some (tv, rest) /\
    parse_clips loaded = inr l /\
    response r = FileResponse (in_temp (Clip.base_filename file ++ "_clips.zip"))
                              (Clip.base_filename file ++ "_clips.zip") "application/zip" /\
    path_exists (resp_path (response r)) w1 = true /\
    background r =
      [Some tv :: Some (resp_path (response r))
       :: List.map Some (clip_outputs (Clip.base_filename file) (length l))].
Proof.
  intros H.
  destruct (clip_video_inv file loaded w w1 r H)
    as (l & tv & [rest H0] & H1 & H2 & H3 & H4 & _).
  exists l, tv, rest. auto.
Qed.

(** X8: when the system refuses no deletion, the cleanup that a successful
    /clip request has scheduled removes the archive it returned and every
    other path it lists. *)
Theorem clip_success_then_cleanup
    (file : upload) (loaded : loads_error + json) (w w1 : world) (r : reply) :
  Clip.clip_video file loaded w = (inr r, w1) ->
  pinned w = ∅ ->
  exists w2,
    run_background (background r) w1 = (inr tt, w2) /\
    path_exists (resp_path (response r)) w2 = false /\
    forall t p, In t (background r) -> In (Some p) t -> p <> "" -> path_exists p w2 = false.
Proof.
  intros H Hp.
  destruct (clip_video_inv file loaded w w1 r H)
    as (l & tv & _ & _ & Hresp & _ & Hbg & Hpin).
  rewrite Hbg, run_background_single.
  match goal with |- context [cleanup_files ?t w1] =>
    pose proof (cleanup_files_run t w1) as Hrun;
    pose proof (fun p => cleanup_removes t w1 _ p ltac:(congruence) Hrun) as Hc
  end.
  eexists. split; [exact Hrun|]. split.
  - apply Hc; [right; left; reflexivity|]. rewrite Hresp. apply in_temp_nonempty.
  - intros t p [<- | []] Hin Hne. apply Hc; assumption.
Qed.





Lemma clip_response_shape_witness :
  exists l tv rest,
    first_free (video_ext movie) (files (fresh_world 30 [ok "a"; ok "b"]))
               (tmp_names (fresh_world 30 [ok "a"; ok "b"])) = Some (tv, rest) /\
    parse_clips (inr plan_5_10_20_25) = inr l /\
    response (Reply (FileResponse "temp/movie_clips.zip" "movie_clips.zip" "application/zip")
                    [[Some movie_source; Some "temp/movie_clips.zip";
                      Some "temp/movie_clip_1.mp4"; Some "temp/movie_clip_2.mp4"]])
      = FileResponse (in_temp (Clip.base_filename movie ++ "_clips.zip"))
                     (Clip.base_filename movie ++ "_clips.zip") "application/zip" /\
    path_exists "temp/movie_clips.zip"
      (snd (Clip.clip_video movie (inr plan_5_10_20_25) (fresh_world 30 [ok "a"; ok "b"])))
      = true /\
    [[Some movie_source; Some "temp/movie_clips.zip";
      Some "temp/movie_clip_1.mp4"; Some "temp/movie_clip_2.mp4"]]
    = [Some tv :: Some "temp/movie_clips.zip"
       :: List.map Some (clip_outputs (Clip.base_filename movie) (length l))].
Proof.
  apply (clip_response_shape movie (inr plan_5_10_20_25) (fresh_world 30 [ok "a"; ok "b"])).
  vm_compute. reflexivity.
Defined.

Lemma clip_success_then_cleanup_witness :
  exists w2,
    run_background [[Some movie_source; Some "temp/movie_clips.zip";
                     Some "temp/movie_clip_1.mp4"; Some "temp/movie_clip_2.mp4"]]
      (snd (Clip.clip_video movie (inr plan_5_10_20_25) (fresh_world 30 [ok "a"; ok "b"])))
      = (inr tt, w2) /\
    path_exists "temp/movie_clips.zip" w2 = false /\
    forall t p,
      In t [[Some movie_source; Some "temp/movie_clips.zip";
             Some "temp/movie_clip_1.mp4"; Some "temp/movie_clip_2.mp4"]] ->
      In (Some p) t -> p <> "" -> path_exists p w2 = false.
Proof.
  apply (clip_success_then_cleanup movie (inr plan_5_10_20_25)
           (fresh_world 30 [ok "a"; ok "b"])
           (snd (Clip.clip_video movie (inr plan_5_10_20_25) (fresh_world 30 [ok "a"; ok "b"])))
           (Reply (FileResponse "temp/movie_clips.zip" "movie_clips.zip" "application/zip")
                  [[Some movie_source; Some "temp/movie_clips.zip";
                    Some "temp/movie_clip_1.mp4"; Some "temp/movie_clip_2.mp4"]])).
  - vm_compute. reflexivity.
  - reflexivity.
Defined.



(** ** Uploads and plans at the edges *)

(** X11: an upload whose content type is missing, or does not start with
    [video/], is refused by both handlers with the same 400 and the world is
    left as it was; /clip refuses it before it looks at the plan. *)
Theorem non_video_upload_refused (file : upload) :
  content_type file = None \/
  (exists ct, content_type file = Some ct /\ String.prefix "video/" ct = false) ->
  forall (w : world) (loaded : loads_error + json),
    Convert.convert_video_to_audio file w = (inl invalid_file_type, w) /\
    Clip.clip_video file loaded w = (inl invalid_file_type, w).
Proof.
  intros Hct w loaded.
  assert (Hnv : not_video file = true).
  { unfold not_video. destruct Hct as [-> | (ct & -> & Hpre)]; [reflexivity|].
    destruct ct as [|c ct]; [reflexivity|]. cbn [truthy]. rewrite Hpre. reflexivity. }
  unfold Convert.convert_video_to_audio, Clip.clip_video. rewrite Hnv. split; reflexivity.
Qed.

Lemma non_video_upload_refused_witness :
  Convert.convert_video_to_audio (Upload (Some "notes.txt") (Some "text/plain") "hello")
    (fresh_world 30 [])
    = (inl invalid_file_type, fresh_world 30 []) /\
  Clip.clip_video (Upload (Some "notes.txt") (Some "text/plain") "hello")
    (inl (JSONDecodeError "Expecting value")) (fresh_world 30 [])
    = (inl invalid_file_type, fresh_world 30 []).
Proof.
  apply (non_video_upload_refused (Upload (Some "notes.txt") (Some "text/plain") "hello")).
  right. exists "text/plain". split; reflexivity.
Defined.

(** X12: keys other than [start] and [end] play no part in the validation
    of a plan entry. *)
Theorem other_keys_ignored (i : nat) (d : gmap string json) (k : string) (v : json) :
  k <> "start" -> k <> "end" ->
  check_clip i (JDict (<[k := v]> d)) = check_clip i (JDict d) /\
  check_clip i (JDict (delete k d)) = check_clip i (JDict d).
Proof.
  intros Hs He. unfold check_clip.
  rewrite !lookup_insert_ne, !lookup_delete_ne by congruence. split; reflexivity.
Qed.

Lemma other_keys_ignored_witness :
  check_clip 0 (JDict (<["label" := JStr "intro"]> {[ "start" := JInt 0; "end" := JInt 4 ]}))
    = check_clip 0 (JDict {[ "start" := JInt 0; "end" := JInt 4 ]}) /\
  check_clip 0 (JDict (delete "label" {[ "start" := JInt 0; "end" := JInt 4 ]}))
    = check_clip 0 (JDict {[ "start" := JInt 0; "end" := JInt 4 ]}).
Proof.
  apply (other_keys_ignored 0 {[ "start" := JInt 0; "end" := JInt 4 ]} "label" (JStr "intro"));
    discriminate.
Defined.

Lemma float_lt_nan_r (a : pyfloat) : float_lt a Fnan = false.
Proof. destruct a as [|[]|]; reflexivity. Qed.

(** X13: an entry whose [end] is [NaN] (which [json.loads] accepts) and
    whose [start] is a number that is not negative passes the structural
    checks, and passes the check against every duration: no comparison
    with [NaN] is true. *)
Theorem nan_end_passes (i : nat) (d : gmap string json) (s : json) (x : pynum) :
  d !! "start" = Some s -> as_number s = Some x -> py_lt x (PInt 0) = false ->
  d !! "end" = Some (JFloat Fnan) ->
  check_clip i (JDict d) = None /\
  forall (St : Type) (video_duration : pynum) (n : nat) (st : St),
    Clip.check_duration video_duration n [JDict d] st = (inr tt, st).
Proof.
  intros Hs Hx Hneg He. split.
  - unfold check_clip. rewrite Hs, He, Hx. cbn [as_number]. rewrite Hneg.
    unfold py_lt, py_le. cbn [num_float orb float_lt float_eq].
    destruct (num_float x); reflexivity.
  - intros St dur n st. cbn [Clip.check_duration].
    erewrite bind_ok by (apply subscript_end; unfold end_of; rewrite He; reflexivity).
    unfold py_gt, py_lt. cbn [num_float]. rewrite float_lt_nan_r. reflexivity.
Qed.

Lemma nan_end_passes_witness :
  check_clip 0 (JDict {[ "start" := JInt 0; "end" := JFloat Fnan ]}) = None /\
  forall (St : Type) (video_duration : pynum) (n : nat) (st : St),
    Clip.check_duration video_duration n
      [JDict {[ "start" := JInt 0; "end" := JFloat Fnan ]}] st = (inr tt, st).
Proof.
  apply (nan_end_passes 0 {[ "start" := JInt 0; "end" := JFloat Fnan ]} (JInt 0) (PInt 0));
    reflexivity.
Defined.

(** X14: a plan that passes parsing is the list that was loaded, is not
    empty, and at each of its entries the subscripts [clip["start"]] and
    [clip["end"]] of the later loops succeed, with numbers that are not
    negative and an end that is not at or before the start. *)
Theorem accepted_plan (loaded : loads_error + json) (l : list json) :
  parse_clips loaded = inr l ->
  loaded = inr (JList l) /\ l <> [] /\
  forall c, c ∈ l ->
    exists s e,
      (forall (St : Type) (st : St),
         subscript c "start" st = (inr s, st) /\ subscript c "end" st = (inr e, st)) /\
      py_lt s (PInt 0) = false /\ py_lt e (PInt 0) = false /\ py_le e s = false.
Proof.
  intros H. destruct (parse_clips_valid _ _ H) as [Hne Hval]. split; [|split; [exact Hne|]].
  - unfold parse_clips in H. destruct loaded as [[m|m|m]|v]; try discriminate.
    destruct v as [| | | | |l0|d]; simpl in H; try discriminate.
    destruct (check_clips 0 l0); [discriminate|].
    destruct (length l0 =? 0)%nat; [discriminate|]. injection H as <-. reflexivity.
  - intros c Hin. rewrite Forall_forall in Hval.
    destruct (Hval c Hin) as (s & e & Hs & He & H1 & H2 & H3).
    exists s, e. split; [|auto]. intros St st.
    split; [apply subscript_start | apply subscript_end]; assumption.
Qed.

Lemma accepted_plan_witness :
  (inr plan_5_10_20_25 : loads_error + json) = inr (JList entries_5_10_20_25) /\
  entries_5_10_20_25 <> [] /\
  forall c, c ∈ entries_5_10_20_25 ->
    exists s e,
      (forall (St : Type) (st : St),
         subscript c "start" st = (inr s, st) /\ subscript c "end" st = (inr e, st)) /\
      py_lt s (PInt 0) = false /\ py_lt e (PInt 0) = false /\ py_le e s = false.
Proof.
  apply (accepted_plan (inr plan_5_10_20_25) entries_5_10_20_25).
  vm_compute. reflexivity.
Defined.

Lemma subscript_end_inv {St} (c : json) (e : pynum) (st st' : St) :
  subscript c "end" st = (inr e, st') -> end_of c = Some e.
Proof.
  unfold subscript, end_of. destruct c; try discriminate.
  destruct (d !! "end") as [v|]; [|discriminate]. simpl.
  destruct (as_number v); [|discriminate]. intros [= -> _]. reflexivity.
Qed.

Lemma float_lt_irrefl (a : pyfloat) : float_lt a a = false.
Proof.
  destruct a as [|[]|m e]; try reflexivity.
  unfold float_lt, dyadic_compare. rewrite Z.compare_refl. reflexivity.
Qed.

(** X15: for a plan whose entries have their [end], the check against the
    duration passes exactly when no end is greater than the duration, and an
    end equal to the duration is not greater; when it passes it has changed
    nothing. *)
Theorem duration_check_passes_iff
    (St : Type) (video_duration : pynum) (l : list json) (n : nat) (st : St) :
  Forall valid_clip l ->
  (forall st', Clip.check_duration video_duration n l st = (inr tt, st') -> st' = st) /\
  (Clip.check_duration video_duration n l st = (inr tt, st) <->
   forall c e, c ∈ l -> end_of c = Some e -> py_gt e video_duration = false) /\
  (forall e, num_float e = num_float video_duration -> py_gt e video_duration = false).
Proof.
  intros Hval. split; [|split].
  - intros st'. apply check_duration_inv.
  - split.
    + revert n. induction l as [|c l IH]; intros n H c' e Hin He; [inversion Hin|].
      inversion Hval as [|? ? _ Hval']; subst.
      cbn [Clip.check_duration] in H.
      apply bind_inr in H as (e0 & st1 & Hsub & H).
      pose proof (subscript_inv _ _ _ _ _ Hsub) as ->.
      apply subscript_end_inv in Hsub.
      destruct (py_gt e0 video_duration) eqn:Hgt; [discriminate H|].
      apply elem_of_cons in Hin as [-> | Hin].
      * congruence.
      * exact (IH Hval' _ H c' e Hin He).
    + intros H. apply check_duration_pass.
      rewrite Forall_forall in Hval |- *. intros c Hin.
      destruct (Hval c Hin) as (s & e & _ & He & _). exists e. split; [exact He|].
      exact (H c e Hin He).
  - intros e He. unfold py_gt, py_lt. rewrite He. apply float_lt_irrefl.
Qed.

Lemma duration_check_passes_iff_witness :
  (forall st', Clip.check_duration (PFloat (Ffin 25 0)) 0 entries_5_10_20_25 tt = (inr tt, st')
               -> st' = tt) /\
  (Clip.check_duration (PFloat (Ffin 25 0)) 0 entries_5_10_20_25 tt = (inr tt, tt) <->
   forall c e, c ∈ entries_5_10_20_25 -> end_of c = Some e ->
               py_gt e (PFloat (Ffin 25 0)) = false) /\
  (forall e, num_float e = num_float (PFloat (Ffin 25 0)) ->
             py_gt e (PFloat (Ffin 25 0)) = false).
Proof.
  apply (duration_check_passes_iff unit (PFloat (Ffin 25 0)) entries_5_10_20_25 0 tt).
  repeat constructor; do 2 eexists; repeat split; vm_compute; reflexivity.
Defined.

(** ** The names of the outputs *)

Lemma has_slash_app (a b : string) : has_slash (a ++ b) = has_slash a || has_slash b.
Proof. induction a as [|c a IH]; simpl; [reflexivity|]. rewrite IH. apply orb_assoc. Qed.

Lemma has_slash_rev_app (a b : string) :
  has_slash (String.rev_app a b) = has_slash a || has_slash b.
Proof.
  revert b. induction a as [|c a IH]; intros b; simpl; [reflexivity|].
  rewrite IH. simpl. destruct (Ascii.eqb c slash), (has_slash a); reflexivity.
Qed.

Lemma components_no_slash (cur s : string) :
  has_slash cur = false ->
  Forall (fun c => has_slash c = false) (components_go cur s).
Proof.
  revert cur. induction s as [|c s IH]; intros cur Hcur; simpl.
  - constructor; [|constructor]. unfold String.rev. rewrite has_slash_rev_app, Hcur. reflexivity.
  - destruct (Ascii.eqb c slash) eqn:Ec.
    + constructor; [|apply IH; reflexivity].
      unfold String.rev. rewrite has_slash_rev_app, Hcur. reflexivity.
    + apply IH. simpl. rewrite Ec, Hcur. reflexivity.
Qed.

Lemma last_Forall {X} (P : X -> Prop) (l : list X) (d : X) :
  Forall P l -> P d -> P (List.last l d).
Proof.
  intros Hl Hd. induction Hl as [|x l Hx Hl IH]; [exact Hd|].
  simpl. destruct l; [exact Hx | exact IH].
Qed.

Lemma path_name_no_slash (s : string) : has_slash (path_name s) = false.
Proof.
  unfold path_name. apply last_Forall; [|reflexivity].
  pose proof (components_no_slash "" s eq_refl) as H.
  rewrite Forall_forall in H |- *. intros c Hin.
  apply H. apply list_elem_of_In. apply list_elem_of_In in Hin.
  apply filter_In in Hin as [Hin _]. exact Hin.
Qed.

Lemma substring_no_slash (s : string) (i n : nat) :
  has_slash s = false -> has_slash (substring i n s) = false.
Proof.
  revert i n. induction s as [|c s IH]; intros i n H.
  - destruct i, n; reflexivity.
  - simpl in H. apply orb_false_elim in H as [Hc Hs].
    destruct i as [|i]; destruct n as [|n]; simpl; try reflexivity.
    + rewrite Hc. simpl. apply IH. exact Hs.
    + apply IH. exact Hs.
    + apply IH. exact Hs.
Qed.

Lemma path_stem_no_slash (s : string) : has_slash (path_stem s) = false.
Proof.
  unfold path_stem, name_stem. destruct (suffix_start (path_name s)).
  - apply substring_no_slash, path_name_no_slash.
  - apply path_name_no_slash.
Qed.

Lemma path_suffix_no_slash (s : string) : has_slash (path_suffix s) = false.
Proof.
  unfold path_suffix, name_suffix. destruct (suffix_start (path_name s)).
  - apply substring_no_slash, path_name_no_slash.
  - reflexivity.
Qed.

Lemma pretty_N_char_no_slash (x : N) : Ascii.eqb (pretty_N_char x) slash = false.
Proof.
  unfold pretty_N_char.
  destruct x as [|p]; [reflexivity|].
  repeat (destruct p as [p|p|]; try reflexivity).
Qed.

Lemma pretty_N_go_no_slash (x : N) (s : string) :
  has_slash s = false -> has_slash (pretty_N_go x s) = false.
Proof.
  revert s. induction (N.lt_wf_0 x) as [x _ IH]; intros s Hs.
  destruct (decide (0 < x)%N) as [Hx|Hx].
  - rewrite pretty_N_go_step by exact Hx. apply IH.
    + apply N.div_lt; [exact Hx | reflexivity].
    + simpl. rewrite pretty_N_char_no_slash, Hs. reflexivity.
  - assert (x = 0%N) as -> by lia. rewrite pretty_N_go_0. exact Hs.
Qed.

Lemma str_nat_no_slash (i : nat) : has_slash (str_nat i) = false.
Proof.
  unfold str_nat, pretty, pretty_nat, pretty, pretty_N.
  destruct (decide (N.of_nat i = 0%N)); [reflexivity|].
  apply pretty_N_go_no_slash. reflexivity.
Qed.

Lemma base_filename_no_slash (file : upload) : has_slash (Clip.base_filename file) = false.
Proof.
  unfold Clip.base_filename. destruct (truthy (filename file)); [|reflexivity].
  apply path_stem_no_slash.
Qed.

(** X16: whatever filename comes with the upload, directory parts and all,
    the names the handlers build (the MP3, the archive, every clip, and the
    suffix of the persisted source) contain no [/]: every output path is an
    entry of [TEMP_DIR] itself. *)
Theorem output_names_stay_in_temp (file : upload) :
  has_slash (Convert.audio_filename file) = false /\
  has_slash (Clip.zip_filename file) = false /\
  (forall total i,
     has_slash (Clip.clip_filename (Clip.base_filename file) total i) = false) /\
  has_slash (video_ext file) = false.
Proof.
  split; [|split; [|split]].
  - unfold Convert.audio_filename. destruct (truthy (filename file)); [|reflexivity].
    rewrite has_slash_app, path_stem_no_slash. reflexivity.
  - unfold Clip.zip_filename. rewrite has_slash_app, base_filename_no_slash. reflexivity.
  - intros total i. unfold Clip.clip_filename.
    rewrite !has_slash_app, base_filename_no_slash.
    destruct (total =? 1)%nat; [reflexivity|].
    rewrite has_slash_app, str_nat_no_slash. reflexivity.
  - unfold video_ext. destruct (truthy (filename file)); [|reflexivity].
    apply path_suffix_no_slash.
Qed.

(** A filename that tries to leave the scratch directory. *)
Example traversal_filename_is_cut :
  let file := Upload (Some "../../etc/cron.d/job.mp4") (Some "video/mp4") "x" in
  Convert.audio_filename file = "job.mp3" /\ Clip.zip_filename file = "job_clips.zip" /\
  Clip.clip_filename (Clip.base_filename file) 2 0 = "job_clip_1.mp4".
Proof. vm_compute. repeat split. Qed.

Lemma string_app_inj_r (a b c : string) : a ++ c = b ++ c -> a = b.
Proof.
  revert b. induction a as [|x a IH]; intros b H.
  - destruct b as [|y b]; [reflexivity|]. exfalso.
    apply (f_equal String.length) in H. rewrite !string_app_length in H. simpl in H. lia.
  - destruct b as [|y b].
    + exfalso. apply (f_equal String.length) in H.
      rewrite !string_app_length in H. simpl in H. lia.
    + cbn [append] in H. injection H as -> H. f_equal. exact (IH b H).
Qed.

Lemma entry_name_inj (base : string) (total i j : nat) :
  total <> 1%nat -> entry_name base total i = entry_name base total j -> i = j.
Proof.
  intros Ht. unfold entry_name.
  destruct (Nat.eqb_spec total 1%nat) as [|_]; [contradiction|].
  intros H. apply String.app_inj in H. apply (String.app_inj "_clip_") in H.
  apply string_app_inj_r in H. unfold str_nat in H.
  apply (inj pretty) in H. lia.
Qed.

Lemma NoDup_map_injective {X Y} (f : X -> Y) (l : list X) :
  (forall a b, f a = f b -> a = b) -> NoDup l -> NoDup (List.map f l).
Proof.
  intros Hf Hl. induction Hl as [|x l Hx Hl IH]; simpl; constructor; [|exact IH].
  intros Hin. apply list_elem_of_In, in_map_iff in Hin as (y & Hy & Hin).
  apply Hf in Hy. subst y. apply Hx, list_elem_of_In. exact Hin.
Qed.

(** ** The attachment name of /convert *)

Lemma string_app_cons (c : ascii) (s t : string) : String c s ++ t = String c (s ++ t).
Proof. reflexivity. Qed.

Lemma string_app_nil_r (s : string) : s ++ "" = s.
Proof.
  induction s as [|c s IH]; [reflexivity|]. rewrite string_app_cons, IH. reflexivity.
Qed.

Lemma string_app_assoc (a b c : string) : (a ++ b) ++ c = a ++ (b ++ c).
Proof.
  induction a as [|x a IH]; [reflexivity|]. rewrite !string_app_cons, IH. reflexivity.
Qed.

Lemma rev_app_rev_app (s a b : string) :
  String.rev_app (String.rev_app s a) b = String.rev_app a (s ++ b).
Proof.
  revert a b. induction s as [|c s IH]; intros a b; simpl; [reflexivity|].
  rewrite IH. reflexivity.
Qed.

Lemma components_go_plain (cur s : string) :
  has_slash s = false -> components_go cur s = [String.rev (String.rev_app s cur)].
Proof.
  revert cur. induction s as [|c s IH]; intros cur H; simpl in *; [reflexivity|].
  apply orb_false_elim in H as [Hc Hs]. rewrite Hc. apply IH. exact Hs.
Qed.

Lemma components_go_slash (cur a b : string) :
  components_go cur (a ++ String slash b)
  = (components_go cur a ++ components_go "" b)%list.
Proof.
  revert cur. induction a as [|c a IH]; intros cur; simpl.
  - reflexivity.
  - destruct (Ascii.eqb c slash); [|apply IH].
    rewrite IH. reflexivity.
Qed.

Lemma components_of_name (name : string) :
  has_slash name = false -> components_go "" name = [name].
Proof.
  intros H. rewrite components_go_plain by exact H.
  unfold String.rev. rewrite rev_app_rev_app. simpl. rewrite string_app_nil_r. reflexivity.
Qed.

(** [Path(dir + name).name] is [name]. *)
Lemma path_name_of (dir name : string) :
  directory_part dir -> has_slash name = false -> name <> "" -> name <> "." ->
  path_name (dir ++ name) = name.
Proof.
  intros Hdir Hs Hne Hnd.
  assert (Hk : kept_component name = true).
  { unfold kept_component. apply negb_true_iff, orb_false_intro; apply String.eqb_neq; assumption. }
  unfold path_name. destruct Hdir as [-> | [d ->]].
  - change ("" ++ name) with name. rewrite components_of_name by exact Hs.
    cbn [List.filter]. rewrite Hk. reflexivity.
  - rewrite string_app_assoc. change ("/" ++ name) with (String slash name).
    rewrite components_go_slash, (components_of_name name Hs).
    rewrite List.filter_app. cbn [List.filter]. rewrite Hk. apply last_last.
Qed.

Lemma rfind_dot_none (s : string) : has_dot s = false -> rfind_dot s = None.
Proof.
  induction s as [|c s IH]; simpl; [reflexivity|]. intros H.
  apply orb_false_elim in H as [Hc Hs]. rewrite (IH Hs), Hc. reflexivity.
Qed.

Lemma rfind_dot_app (a b : string) (i : nat) :
  rfind_dot b = Some i -> rfind_dot (a ++ b) = Some (String.length a + i)%nat.
Proof.
  intros Hb. induction a as [|c a IH]; simpl; [exact Hb|]. rewrite IH. reflexivity.
Qed.

Lemma substring_prefix (a b : string) : substring 0 (String.length a) (a ++ b) = a.
Proof.
  induction a as [|c a IH]; simpl; [destruct b; reflexivity | now rewrite IH].
Qed.

(** The stem of [stem.ext] is [stem]. *)
Lemma name_stem_of (stem ext : string) :
  stem <> "" -> has_dot ext = false -> ext <> "" ->
  name_stem (stem ++ "." ++ ext) = stem.
Proof.
  intros Hst Hd He. unfold name_stem, suffix_start.
  change ("." ++ ext) with (String dot ext).
  rewrite (rfind_dot_app stem (String dot ext) 0).
  2:{ simpl. rewrite (rfind_dot_none ext Hd). reflexivity. }
  rewrite string_app_length. simpl String.length.
  assert (Hlen : (0 < String.length stem)%nat) by (destruct stem; [congruence | simpl; lia]).
  assert (Hle : (0 < String.length ext)%nat) by (destruct ext; [congruence | simpl; lia]).
  destruct (Nat.ltb_spec 0 (String.length stem + 0)); [|lia].
  destruct (Nat.ltb_spec (String.length stem + 0)
              (String.length stem + S (String.length ext) - 1)); [|lia].
  cbn [andb]. rewrite Nat.add_0_r. apply substring_prefix.
Qed.

Lemma name_stem_plain (name : string) : has_dot name = false -> name_stem name = name.
Proof.
  intros H. unfold name_stem, suffix_start. rewrite (rfind_dot_none name H). reflexivity.
Qed.

Lemma has_dot_single : forall s, has_dot s = false -> s <> ".".
Proof. intros s H ->. discriminate. Qed.

Lemma stem_ext_not_dot (stem ext : string) :
  ext <> "" -> stem <> "" -> stem ++ "." ++ ext <> "" /\ stem ++ "." ++ ext <> ".".
Proof.
  intros He Hs. destruct stem as [|c stem]; [congruence|]. split; [discriminate|].
  simpl. intros [= -> H]. destruct stem; discriminate.
Qed.

Lemma has_slash_stem_ext (stem ext : string) :
  has_slash stem = false -> has_slash ext = false -> has_slash (stem ++ "." ++ ext) = false.
Proof.
  intros H1 H2. rewrite has_slash_app, H1. simpl. exact H2.
Qed.

(** C8: a /convert request that returns its MP3 answers with media type
    [audio/mpeg] and names the attachment [output.mp3] when no filename came
    with the upload.  For a filename [dir + stem + "." + ext] (directories,
    then a base name whose last dot is followed by the extension [ext]) the
    attachment is [stem + ".mp3"]; for a filename [dir + name] whose base
    name has no dot it is [name + ".mp3"].  In every case it is
    [Path(filename).name] with its suffix cut off and [.mp3] put in its
    place. *)
Theorem convert_attachment_name (file : upload) (w w' : world) (r : reply) :
  Convert.convert_video_to_audio file w = (inr r, w') ->
  media_type (response r) = "audio/mpeg" /\
  (no_filename file -> resp_filename (response r) = "output.mp3") /\
  (forall dir stem ext,
     filename file = Some (dir ++ stem ++ "." ++ ext) ->
     directory_part dir -> has_slash stem = false -> stem <> "" ->
     has_slash ext = false -> has_dot ext = false -> ext <> "" ->
     resp_filename (response r) = stem ++ ".mp3") /\
  (forall dir name,
     filename file = Some (dir ++ name) ->
     directory_part dir -> has_slash name = false -> has_dot name = false -> name <> "" ->
     resp_filename (response r) = name ++ ".mp3") /\
  (forall fn, filename file = Some fn -> fn <> "" ->
     resp_filename (response r) = replace_extension (path_name fn) ".mp3").
Proof.
  unfold Convert.convert_video_to_audio. intros H.
  destruct (not_video file); [discriminate|].
  apply with_locals_inr in H as [f' H].
  apply try_except_inr in H as [H | (e & s1 & _ & H)];
    [| exfalso; exact (convert_handler_raises _ _ _ _ H)].
  pose proof (convert_body_filename _ _ _ _ H) as Hn.
  assert (Hgiven : forall fn, filename file = Some fn -> fn <> "" ->
                     resp_filename (response r) = path_stem fn ++ ".mp3").
  { intros fn Hf Hne. rewrite Hn. unfold Convert.audio_filename. rewrite Hf.
    destruct fn as [|c fn]; [congruence | reflexivity]. }
  split; [|split; [|split; [|split]]].
  - unfold Convert.body in H.
    repeat (apply bind_inr in H; destruct H as (? & ? & _ & H)).
    destruct (negb _).
    + exfalso. exact (bind_raise_not_inr _ _ _ _ _ H).
    + injection H as <- _. reflexivity.
  - intros [Hf | Hf]; rewrite Hn; unfold Convert.audio_filename; rewrite Hf; reflexivity.
  - intros dir stem ext Hf Hdir Hss Hst Hse Hde He.
    destruct (stem_ext_not_dot stem ext He Hst) as [Hn1 Hn2].
    rewrite (Hgiven _ Hf).
    2:{ destruct dir; [exact Hn1 | discriminate]. }
    unfold path_stem.
    rewrite path_name_of; try assumption; [|apply has_slash_stem_ext; assumption].
    rewrite name_stem_of by assumption. reflexivity.
  - intros dir name Hf Hdir Hs Hd Hne.
    rewrite (Hgiven _ Hf).
    2:{ destruct dir; [exact Hne | discriminate]. }
    unfold path_stem.
    rewrite path_name_of; try assumption; [|apply has_dot_single; exact Hd].
    rewrite name_stem_plain by exact Hd. reflexivity.
  - intros fn Hf Hne. rewrite (Hgiven _ Hf Hne).
    unfold path_stem, replace_extension. rewrite stem_is_cut. reflexivity.
Qed.

Lemma convert_attachment_name_witness :
  exists r w',
    Convert.convert_video_to_audio movie (fresh_world 30 [ok "mp3"]) = (inr r, w') /\
    resp_filename (response r) = "movie.mp3".
Proof.
  destruct (Convert.convert_video_to_audio movie (fresh_world 30 [ok "mp3"]))
    as [[e|r] w'] eqn:E.
  - vm_compute in E. discriminate.
  - exists r, w'. split; [reflexivity|].
    apply (proj1 (proj2 (proj2 (convert_attachment_name movie _ w' r E))) "" "movie" "mp4").
    + reflexivity.
    + left. reflexivity.
    + reflexivity.
    + discriminate.
    + reflexivity.
    + reflexivity.
    + discriminate.
Defined.

(** Directories are dropped and only the last extension is replaced; a name
    that starts with its only dot, or ends with a dot, has no extension for
    [pathlib] and is kept whole. *)
Example attachment_names :
  Convert.audio_filename (Upload (Some "clips/2024/holiday.final.mov") (Some "video/quicktime") "")
  = "holiday.final.mp3" /\
  Convert.audio_filename (Upload (Some "/tmp/recording") (Some "video/mp4") "")
  = "recording.mp3" /\
  Convert.audio_filename (Upload (Some ".mp4") (Some "video/mp4") "") = ".mp4.mp3" /\
  Convert.audio_filename (Upload (Some "movie.") (Some "video/mp4") "") = "movie..mp3" /\
  Convert.audio_filename (Upload None (Some "video/mp4") "") = "output.mp3".
Proof. vm_compute. repeat split. Qed.

(** ** Booleans in a clip plan *)

Lemma number_or_boolean_as_number (v : json) (x : pynum) :
  number_or_boolean v = Some x ->
  exists x', as_number v = Some x' /\ num_float x' = num_float x.
Proof.
  destruct v as [|b|z|f| | |]; try discriminate; intros [= <-]; eexists; split;
    try reflexivity.
  destruct b; reflexivity.
Qed.

Lemma rule_text_inj (i : nat) (r r' : rule) : rule_text i r = rule_text i r' -> r = r'.
Proof.
  unfold rule_text. intros H. apply String.app_inj in H. apply String.app_inj in H.
  destruct r, r'; try reflexivity; discriminate H.
Qed.

(** C10: a plan entry whose [start] or [end] is a JSON boolean.  The entry
    is checked exactly as the entry with that boolean replaced by the
    integer 1 (for true) or 0 (for false).  When start and end are each a
    boolean or a JSON number, the entry passes the test for numbers: it is
    judged by the range checks alone, on the numbers the two values stand
    for with true as 1 and false as 0, so it is never answered with the
    error for non-numeric fields; and when those numbers are not negative
    and the end is greater than the start the entry is accepted at every
    index, and the plan made of this entry alone passes parsing. *)
Theorem boolean_counts_as_number (i : nat) (d : gmap string json) (k : string) (b : bool) :
  k = "start" \/ k = "end" ->
  d !! k = Some (JBool b) ->
  check_clip i (JDict d) = check_clip i (JDict (<[k := JInt (Z.b2z b)]> d)) /\
  (forall s e x y,
     d !! "start" = Some s -> d !! "end" = Some e ->
     number_or_boolean s = Some x -> number_or_boolean e = Some y ->
     check_clip i (JDict d) = range_check i x y /\
     check_clip i (JDict d) <> Some (rule_text i NotNumeric) /\
     (py_lt x (PInt 0) = false -> py_lt y (PInt 0) = false -> py_le y x = false ->
      (forall j, check_clip j (JDict d) = None) /\
      parse_clips (inr (JList [JDict d])) = inr [JDict d])).
Proof.
  intros Hk Hb. split.
  - unfold check_clip. destruct Hk as [-> | ->].
    + rewrite lookup_insert_eq, lookup_insert_ne by discriminate. rewrite Hb.
      destruct (d !! "end") as [e|]; [|reflexivity].
      destruct (as_number e) as [y|]; destruct b; reflexivity.
    + rewrite lookup_insert_eq, lookup_insert_ne by discriminate. rewrite Hb.
      destruct (d !! "start") as [s0|]; [|reflexivity].
      destruct (as_number s0) as [x|]; destruct b; reflexivity.
  - intros s e x y Hs He Hx Hy.
    destruct (number_or_boolean_as_number s x Hx) as (x' & Hx' & Hfx).
    destruct (number_or_boolean_as_number e y Hy) as (y' & Hy' & Hfy).
    assert (Hrun : forall j, check_clip j (JDict d) = range_check j x y).
    { intros j. unfold check_clip, range_check, rule_text, py_lt, py_le.
      rewrite Hs, He, Hx', Hy', Hfx, Hfy. reflexivity. }
    split; [apply Hrun|]. split.
    + rewrite Hrun. unfold range_check.
      destruct (py_lt x (PInt 0) || py_lt y (PInt 0)); [|destruct (py_le y x)];
        try discriminate; intros H; apply (inj Some), rule_text_inj in H; discriminate H.
    + intros Hnx Hny Hle.
      assert (Hnone : forall j, check_clip j (JDict d) = None).
      { intros j. rewrite Hrun. unfold range_check. rewrite Hnx, Hny, Hle. reflexivity. }
      split; [exact Hnone|].
      unfold parse_clips, validate_clips, check_clips. rewrite Hnone. reflexivity.
Qed.

Lemma boolean_counts_as_number_witness :
  check_clip 0 (JDict false_to_true)
    = check_clip 0 (JDict (<["end" := JInt 1]> false_to_true)) /\
  check_clip 0 (JDict false_to_true) = None /\
  parse_clips (inr (JList [JDict false_to_true])) = inr [JDict false_to_true].
Proof.
  destruct (boolean_counts_as_number 0 false_to_true "end" true) as [Hsame Hread].
  - right. reflexivity.
  - vm_compute. reflexivity.
  - destruct (Hread (JBool false) (JBool true) (PInt 0) (PInt 1))
      as (_ & _ & Hacc); try (vm_compute; reflexivity).
    destruct Hacc as [Hnone Hparse]; try (vm_compute; reflexivity).
    split; [exact Hsame|]. split; [apply Hnone | exact Hparse].
Defined.

(** The plan [[{"start": false, "end": true}]] passes validation, while
    [[{"start": true, "end": true}]] is refused for its range, not for its
    types, and a string is refused as not a number. *)
Example boolean_plan_accepted :
  parse_clips (inr (JList [JDict false_to_true])) = inr [JDict false_to_true] /\
  parse_clips (inr (JList [JDict {[ "start" := JBool true; "end" := JBool true ]}]))
    = inl (HTTPException 400 [Lit "Clip 0 end must be greater than start"]) /\
  parse_clips (inr (JList [JDict {[ "start" := JStr "0"; "end" := JBool true ]}]))
    = inl (HTTPException 400 [Lit "Clip 0 start and end must be numbers"]).
Proof. vm_compute. repeat split. Qed.

(** ** The output paths of one request *)

Lemma clip_filename_inj (base : string) (total i j : nat) :
  total <> 1%nat ->
  in_temp (Clip.clip_filename base total i) = in_temp (Clip.clip_filename base total j) ->
  i = j.
Proof.
  intros Ht H. unfold in_temp in H. apply String.app_inj in H.
  apply (String.app_inj "/") in H. rewrite !clip_filename_entry in H.
  exact (entry_name_inj base total i j Ht H).
Qed.

(** X17: whenever /clip returns a response, the output paths that
    [extract_clips] built with [clip_filename], one per plan entry and the
    ones the scheduled cleanup lists after the source and the archive, are
    pairwise distinct, and none of them is the path of the archive: within a
    request no clip overwrites another clip or the archive. *)
Theorem clip_outputs_distinct
    (file : upload) (loaded : loads_error + json) (w w1 : world) (r : reply) :
  Clip.clip_video file loaded w = (inr r, w1) ->
  exists l tv outs,
    parse_clips loaded = inr l /\
    outs = List.map (fun i => in_temp (Clip.clip_filename (Clip.base_filename file)
                                                          (length l) i))
                    (seq 0 (length l)) /\
    background r
      = [Some tv :: Some (in_temp (Clip.zip_filename file)) :: List.map Some outs] /\
    resp_path (response r) = in_temp (Clip.zip_filename file) /\
    length outs = length l /\
    NoDup outs /\
    ~ In (in_temp (Clip.zip_filename file)) outs.
Proof.
  intros H.
  destruct (clip_video_inv file loaded w w1 r H) as (l & tv & _ & Hp & Hr & _ & Hb & _).
  exists l, tv. eexists. split; [exact Hp|]. split; [reflexivity|].
  assert (Hnames :
    clip_outputs (Clip.base_filename file) (length l)
    = List.map (fun i => in_temp (Clip.clip_filename (Clip.base_filename file) (length l) i))
               (seq 0 (length l))).
  { unfold clip_outputs. apply map_ext. intros i. rewrite clip_filename_entry. reflexivity. }
  split; [|split; [|split; [|split]]].
  - rewrite Hb, Hr, Hnames. reflexivity.
  - rewrite Hr. reflexivity.
  - rewrite length_map, length_seq. reflexivity.
  - destruct (Nat.eq_dec (length l) 1%nat) as [-> | Ht].
    + cbn. constructor; [intros Hin; inversion Hin | constructor].
    + apply NoDup_map_injective; [|apply NoDup_ListNoDup, seq_NoDup].
      intros i j. apply clip_filename_inj. exact Ht.
  - intros Hin. apply in_map_iff in Hin as (j & Hj & _).
    exact (clip_path_not_zip _ _ _ j Hj).
Qed.

Lemma clip_outputs_distinct_witness :
  exists l tv outs,
    parse_clips (inr plan_5_10_20_25) = inr l /\
    outs = List.map (fun i => in_temp (Clip.clip_filename (Clip.base_filename movie)
                                                          (length l) i))
                    (seq 0 (length l)) /\
    [[Some movie_source; Some "temp/movie_clips.zip";
      Some "temp/movie_clip_1.mp4"; Some "temp/movie_clip_2.mp4"]]
      = [Some tv :: Some (in_temp (Clip.zip_filename movie)) :: List.map Some outs] /\
    "temp/movie_clips.zip" = in_temp (Clip.zip_filename movie) /\
    length outs = length l /\
    NoDup outs /\
    ~ In (in_temp (Clip.zip_filename movie)) outs.
Proof.
  apply (clip_outputs_distinct movie (inr plan_5_10_20_25) (fresh_world 30 [ok "a"; ok "b"])
           (snd (Clip.clip_video movie (inr plan_5_10_20_25)
                                 (fresh_world 30 [ok "a"; ok "b"])))
           (Reply (FileResponse "temp/movie_clips.zip" "movie_clips.zip" "application/zip")
                  [[Some movie_source; Some "temp/movie_clips.zip";
                    Some "temp/movie_clip_1.mp4"; Some "temp/movie_clip_2.mp4"]])).
  vm_compute. reflexivity.
Defined.

(** ** An archive that cannot be opened *)




(** An archive name of more than [NAME_MAX] characters cannot be opened,
    whatever scratch storage holds. *)
Lemma long_archive_name (file : upload) (w : world) :
  (NAME_MAX < String.length (Clip.zip_filename file))%nat ->
  path_isdir (in_temp (Clip.zip_filename file)) w = false ->
  cannot_open (in_temp (Clip.zip_filename file)) w = Some "File name too long".
Proof.
  intros Hlen Hd. unfold cannot_open. rewrite Hd.
  assert (Hs : has_slash (Clip.zip_filename file) = false).
  { unfold Clip.zip_filename. rewrite has_slash_app, base_filename_no_slash. reflexivity. }
  assert (Hn : path_name (in_temp (Clip.zip_filename file)) = Clip.zip_filename file).
  { unfold in_temp. change (TEMP_DIR ++ "/" ++ Clip.zip_filename file)
      with (("temp" ++ "/") ++ Clip.zip_filename file).
    apply path_name_of.
    - right. eexists. reflexivity.
    - exact Hs.
    - intros E. rewrite E in Hlen. simpl in Hlen. unfold NAME_MAX in Hlen. lia.
    - intros E. rewrite E in Hlen. simpl in Hlen. unfold NAME_MAX in Hlen. lia. }
  rewrite Hn. destruct (Nat.ltb_spec NAME_MAX (String.length (Clip.zip_filename file)));
    [reflexivity | lia].
Qed.
